(** * Queue rotation and conflict resolution of the maid bot

    A shallow embedding of
    - [handlers/other_core_modules/resolve_conflict.py]
      ([get_later_time], [skip_chore_today], [ask_for_reason],
      [inform_and_resolve], [swap_users]),
    - [handlers/queue_config/reorder_queue.py] ([reorder_queue]),
    - [utils/get_db_data.py] ([get_team_id], [get_queue_array],
      [get_queue_list]),
    together with the properties the specification states about them.

    Python dictionaries with a fixed set of keys are records, the Mongo
    collections are finite maps, the job store of the scheduler is the list
    of its job documents, and every handler is a function on an explicit
    [world] that records what was sent, stored, scheduled and logged. *)

From Stdlib Require Import ZArith Lia Ascii.
From stdpp Require Import gmap strings list pretty.

Open Scope Z_scope.
Open Scope nat_scope.
Open Scope string_scope.

(** ** Data model *)

(** One element of a queue array:
    [{"user_id": ..., "name": ..., "current_turn": ...}]. *)
Record member := Member {
  user_id : Z;
  name : string;
  current_turn : bool
}.

(** Number of members of a queue that carry [current_turn = True]. *)
Fixpoint turn_count (q : list member) : nat :=
  match q with
  | [] => 0
  | m :: q' => (if current_turn m then 1 else 0) + turn_count q'
  end.

(** The member order of a queue without the turn flags. *)
Definition order (q : list member) : list (Z * string) :=
  map (fun m => (user_id m, name m)) q.

(** The names of a queue, in order. *)
Definition names (q : list member) : list string := map name q.

(** Python exceptions the handlers can raise. *)
Inductive exn :=
| KeyError
| TypeError
| IndexError
| ZeroDivisionError.

(** ** Pure list steps of the handlers *)

Module Pure.

(** Result of a step that may raise. *)
Definition res (A : Type) : Type := exn + A.

Definition bind {A B} (r : res A) (k : A -> res B) : res B :=
  match r with
  | inl e => inl e
  | inr a => k a
  end.

(** Modelled from the spec: [get_current_turn] is imported by
    [resolve_conflict.py] from [utils/get_db_data.py], but the module at
    hand does not define it.  [swap_users] unpacks its result as
    [(_, ct_name, ct_pos)]; following the Member/Queue data model it is the
    id, name and index of the member whose [current_turn] is set, scanning
    the queue from the front.  With no such member there is nothing to
    unpack. *)
Fixpoint get_current_turn_from (index : nat) (q : list member)
  : option (Z * string * nat) :=
  match q with
  | [] => None
  | m :: q' =>
      if current_turn m then Some (user_id m, name m, index)
      else get_current_turn_from (S index) q'
  end.

(** Modelled from the spec: [get_current_turn] (not defined in the module
    at hand), the scan above started at index 0. *)
Definition get_current_turn (q : list member) : option (Z * string * nat) :=
  get_current_turn_from 0 q.

(** [swap_users], lines 177-180:
    [for index, member in enumerate(q_array): if member["user_id"] == uid:
    user_pos = index].  The loop has no [break]: the last match wins. *)
Fixpoint user_pos_loop (uid : Z) (index : nat) (q : list member)
  (user_pos : option nat) : option nat :=
  match q with
  | [] => user_pos
  | m :: q' =>
      user_pos_loop uid (S index) q'
        (if Z.eqb (user_id m) uid then Some index else user_pos)
  end.

Definition find_user_pos (uid : Z) (q : list member) : option nat :=
  user_pos_loop uid 0 q None.

Definition with_current_turn (b : bool) (m : member) : member :=
  {| user_id := user_id m; name := name m; current_turn := b |}.

(** [q_array[i]["current_turn"] = b]; an index past the end raises. *)
Definition set_turn (i : nat) (b : bool) (q : list member) : res (list member) :=
  match q !! i with
  | Some m => inr (<[i := with_current_turn b m]> q)
  | None => inl IndexError
  end.

(** [(ct_pos + 1) % len(q_array)]. *)
Definition next_pos (ct_pos : nat) (q : list member) : res nat :=
  match length q with
  | 0 => inl ZeroDivisionError
  | S _ => inr ((ct_pos + 1) mod length q)
  end.

(** [swap_users], lines 200-202 ("reassigning current_turn"). *)
Definition reassign_turn (ct_pos : nat) (q : list member) : res (list member) :=
  bind (set_turn ct_pos false q) (fun q1 =>
  bind (next_pos ct_pos q1) (fun nxt =>
  set_turn nxt true q1)).

(** [swap_users], line 204:
    [q_array[ct_pos], q_array[user_pos] = q_array[user_pos], q_array[ct_pos]].
    The right-hand side is read first, then the two slots are written from
    left to right. *)
Definition swap_positions (ct_pos user_pos : nat) (q : list member)
  : res (list member) :=
  match q !! user_pos, q !! ct_pos with
  | Some a, Some b => inr (<[user_pos := b]> (<[ct_pos := a]> q))
  | _, _ => inl IndexError
  end.

(** The turn advancer: the reassignment step on its own, from the holder
    found by [get_current_turn]. *)
Definition advance (q : list member) : res (list member) :=
  match get_current_turn q with
  | None => inl TypeError
  | Some (_, _, ct_pos) => reassign_turn ct_pos q
  end.

(** The substitution applied by [swap_users] once both positions are known
    (lines 200-204). *)
Definition substitute (ct_pos user_pos : nat) (q : list member)
  : res (list member) :=
  bind (reassign_turn ct_pos q) (swap_positions ct_pos user_pos).

(** [list.pop(i)] for a non-negative index. *)
Definition pop (i : nat) (q : list member) : res (member * list member) :=
  match q !! i with
  | Some m => inr (m, delete i q)
  | None => inl IndexError
  end.

(** [list.insert(i, x)] for a non-negative index: past the end it appends. *)
Definition list_insert_at (i : nat) (x : member) (q : list member) : list member :=
  take i q ++ x :: drop i q.

(** [reorder_queue], lines 97-98. *)
Definition reorder (from_position to_position : nat) (q : list member)
  : res (list member) :=
  bind (pop from_position q) (fun '(item_to_move, q1) =>
  inr (list_insert_at to_position item_to_move q1)).

End Pure.

(** ** The world of the handlers *)

(** Sticker constants of [utils/sticker_file_ids.py]; only their names are
    used. *)
Inductive sticker :=
| CONFUSED_STICKER
| NOPE_STICKER
| SAD_STICKER
| WHATEVER_STICKER
| YAY_STICKER.

(** An inline button: its text and its callback data. *)
Record InlineKeyboardButton := Button {
  text : string;
  callback_data : string
}.

(** Reply markups: the keyboard built by [add_to_group_keyboard] (module
    [group_stuff], used as an opaque value) or an [InlineKeyboardMarkup]
    given by its buttons. *)
Inductive keyboard :=
| add_to_group_keyboard
| InlineKeyboardMarkup (buttons : list InlineKeyboardButton).

(** What the bot sends to Telegram, in the order it is sent. *)
Inductive event :=
| send_sticker (chat : Z) (s : sticker)
| send_message (chat : Z) (body : string) (reply_markup : option keyboard)
| edit_text (chat : Z) (body : string) (reply_markup : option keyboard)
| delete_message (chat : Z)
| delete_reply_markup (chat : Z)
| answer_callback (user : Z).

(** A job document of the scheduler's job store.  Every job of these
    modules runs [skip_chore_today] on [args]. *)
Record job := Job {
  id : string;
  run_date : Z;
  args : Z * string * string
}.

(** States of the finite-state machine of a chat ([states/all_states.py]). *)
Inductive fsm_state :=
| waiting_for_reason
| setting_up.

(** The data dictionary of an [FSMContext], one optional field per key the
    handlers store. *)
Record state_data := StateData {
  d_queue_name : option string;
  d_from_position : option nat;
  d_queue_array : option (list member)
}.

Record FSMContext := Ctx {
  current_state : option fsm_state;
  data : state_data
}.

Definition empty_data : state_data := StateData None None None.
Definition empty_ctx : FSMContext := Ctx None empty_data.

(** - [users]: the users collection, user id to team id;
    - [team_chats]: what [get_team_chat] reads, user id to the group chat of
      the user's team;
    - [queues]: the queues collection, team id to its ["queues"] document;
    - [sched]: the job store;
    - [fsm]: the storage of the dispatcher, keyed by (chat, user);
    - [outbox]: everything sent, oldest first;
    - [log]: the [logging.info] lines, oldest first. *)
Record world := World {
  users : gmap Z Z;
  team_chats : gmap Z Z;
  queues : gmap Z (gmap string (list member));
  sched : list job;
  fsm : gmap (Z * Z) FSMContext;
  outbox : list event;
  log : list string
}.

(** A handler either returns or raises; the effects made so far stay. *)
Inductive outcome (A : Type) :=
| Ret (a : A) (w : world)
| Raise (e : exn) (w : world).
Arguments Ret {A} a w.
Arguments Raise {A} e w.

Definition M (A : Type) : Type := world -> outcome A.

Definition ret {A} (a : A) : M A := fun w => Ret a w.

Definition raise {A} (e : exn) : M A := fun w => Raise e w.

Definition mbind {A B} (m : M A) (k : A -> M B) : M B :=
  fun w =>
    match m w with
    | Ret a w' => k a w'
    | Raise e w' => Raise e w'
    end.

Notation "x <~ m ;; k" := (mbind m (fun x => k))
  (at level 100, m at next level, right associativity).
Notation "m ;;; k" := (mbind m (fun _ => k))
  (at level 100, right associativity).

Definition lift {A} (r : Pure.res A) : M A :=
  match r with
  | inl e => raise e
  | inr a => ret a
  end.

(** The world after a handler, whether it returned or raised. *)
Definition world_of {A} (o : outcome A) : world :=
  match o with
  | Ret _ w => w
  | Raise _ w => w
  end.

Definition returned {A} (o : outcome A) : bool :=
  match o with
  | Ret _ _ => true
  | Raise _ _ => false
  end.

Definition emit (e : event) : M unit := fun w =>
  Ret tt (World (users w) (team_chats w) (queues w) (sched w) (fsm w)
            (outbox w ++ [e]) (log w)).

Definition logging_info (line : string) : M unit := fun w =>
  Ret tt (World (users w) (team_chats w) (queues w) (sched w) (fsm w)
            (outbox w) (log w ++ [line])).

Definition set_sched (js : list job) : M unit := fun w =>
  Ret tt (World (users w) (team_chats w) (queues w) js (fsm w)
            (outbox w) (log w)).

Definition set_queues (qs : gmap Z (gmap string (list member))) : M unit :=
  fun w =>
  Ret tt (World (users w) (team_chats w) qs (sched w) (fsm w)
            (outbox w) (log w)).

Definition set_fsm (f : gmap (Z * Z) FSMContext) : M unit := fun w =>
  Ret tt (World (users w) (team_chats w) (queues w) (sched w) f
            (outbox w) (log w)).

Definition nl : string := String (Ascii.ascii_of_nat 10) EmptyString.

(** ** [utils/get_db_data.py] *)

(** [get_team_id]: [users.find_one(...)["team_id"]]; subscripting the [None]
    of an unknown user raises. *)
Definition get_team_id (uid : Z) : M Z := fun w =>
  match users w !! uid with
  | Some team_id => Ret team_id w
  | None => Raise TypeError w
  end.

(** Modelled from the spec: [get_team_chat] is imported by
    [resolve_conflict.py] from [utils/get_db_data.py], but the module at
    hand does not define it.  It returns the notification channel (group
    chat) of the user's team, or [None] when the team has none. *)
Definition get_team_chat (uid : Z) : M (option Z) := fun w =>
  Ret (team_chats w !! uid) w.

(** [get_queue_array]: [queues.find_one(...)["queues"][queue_type]]. *)
Definition get_queue_array (team_id : Z) (queue_type : string)
  : M (list member) := fun w =>
  match queues w !! team_id with
  | None => Raise TypeError w
  | Some qs =>
      match qs !! queue_type with
      | None => Raise KeyError w
      | Some queue_array => Ret queue_array w
      end
  end.

(** [get_queue_list]: one line ["{index}. {name}\n"] per member, counting
    from 1. *)
Fixpoint get_queue_list_from (index : nat) (queue_array : list member) : string :=
  match queue_array with
  | [] => EmptyString
  | m :: rest =>
      pretty index +:+ ". " +:+ name m +:+ nl +:+ get_queue_list_from (S index) rest
  end.

Definition get_queue_list (queue_array : list member) : string :=
  get_queue_list_from 1 queue_array.

(** [queues.update_one({"id": team_id}, {"$set": {"queues.<name>": q}},
    upsert=True)]. *)
Definition update_queue (team_id : Z) (queue_name : string) (q : list member)
  : M unit := fun w =>
  set_queues (<[team_id := <[queue_name := q]> (default ∅ (queues w !! team_id))]>
                (queues w)) w.

(** ** The job store *)

(** [sched.add_job(..., id=..., replace_existing=True)]: a job with the same
    id is overwritten where it stands, otherwise the job is added. *)
Fixpoint add_job (j : job) (js : list job) : list job :=
  match js with
  | [] => [j]
  | j' :: js' =>
      if String.eqb (id j') (id j) then j :: js' else j' :: add_job j js'
  end.

(** [sched.remove_job(job_id=...)]: [None] stands for [JobLookupError]. *)
Fixpoint remove_job (job_id : string) (js : list job) : option (list job) :=
  match js with
  | [] => None
  | j :: js' =>
      if String.eqb (id j) job_id then Some js'
      else option_map (cons j) (remove_job job_id js')
  end.

Fixpoint lookup_job (job_id : string) (js : list job) : option job :=
  match js with
  | [] => None
  | j :: js' => if String.eqb (id j) job_id then Some j else lookup_job job_id js'
  end.

(** Number of jobs stored under an id. *)
Fixpoint jobs_with_id (job_id : string) (js : list job) : nat :=
  match js with
  | [] => 0
  | j :: js' => (if String.eqb (id j) job_id then 1 else 0) + jobs_with_id job_id js'
  end.

(** ** The dispatcher's storage *)

Definition get_ctx (key : Z * Z) (w : world) : FSMContext :=
  default empty_ctx (fsm w !! key).

(** [await <State>.set()]. *)
Definition state_set (key : Z * Z) (st : fsm_state) : M unit := fun w =>
  set_fsm (<[key := Ctx (Some st) (data (get_ctx key w))]> (fsm w)) w.

(** [await state.update_data(...)]. *)
Definition state_update_data (key : Z * Z) (f : state_data -> state_data)
  : M unit := fun w =>
  set_fsm (<[key := Ctx (current_state (get_ctx key w)) (f (data (get_ctx key w)))]>
             (fsm w)) w.

(** [await state.get_data()]. *)
Definition state_get_data (key : Z * Z) : M state_data := fun w =>
  Ret (data (get_ctx key w)) w.

(** [await state.finish()]: state and data are dropped. *)
Definition state_finish (key : Z * Z) : M unit := fun w =>
  set_fsm (delete key (fsm w)) w.

(** [d[key]] on a dictionary: a missing key raises. *)
Definition getitem {A} (o : option A) : M A :=
  match o with
  | Some a => ret a
  | None => raise KeyError
  end.

(** Unpacking [a, b, c = value]: [None] cannot be unpacked. *)
Definition unpack {A} (o : option A) : M A :=
  match o with
  | Some a => ret a
  | None => raise TypeError
  end.

(** An incoming text message. *)
Record Message := Msg {
  m_from_id : Z;
  m_full_name : string;
  m_chat : Z;
  m_text : string
}.

(** An incoming callback query; [c_chat] is the chat of the message that
    carries the button.  The pieces of [call.data] that a handler cuts out
    with [split("_")] are passed to it as arguments. *)
Record CallbackQuery := Call {
  c_from_id : Z;
  c_first_name : string;
  c_chat : Z
}.

(** ** [resolve_conflict.py] *)

Definition HOURS : Z := 2.

(** [get_later_time]: the time that is [HOURS] from [now]; times are counted
    in seconds. *)
Definition get_later_time (now : Z) : Z := (now + HOURS * 3600)%Z.

(** The f-string of a chat id that may be [None]. *)
Definition str_chat (group_chat_id : option Z) : string :=
  match group_chat_id with
  | Some c => pretty c
  | None => "None"
  end.

(** [f"resolving_{queue_name}_{group_chat_id}"]. *)
Definition resolving_id (queue_name : string) (group_chat_id : option Z) : string :=
  "resolving_" +:+ queue_name +:+ "_" +:+ str_chat group_chat_id.

Definition skip_text (queue_name user_name : string) : string :=
  "Well, since no one has replied 'I can do it', i will assume that "
  +:+ "the chore in " +:+ queue_name
  +:+ " queue is incomplete and skip it for today."
  +:+ " It is still " +:+ user_name +:+ "'s turn to do the chore.".

Definition skip_chore_today (group_chat_id : Z) (user_name queue_name : string)
  : M unit :=
  emit (send_sticker group_chat_id WHATEVER_STICKER) ;;;
  emit (send_message group_chat_id (skip_text queue_name user_name) None).

Definition ask_reason_text : string :=
  "Can you please type out the reason why you can't complete the chore "
  +:+ "today?" +:+ nl +:+ "I will send it to your group chat and we'll try to work it "
  +:+ "out there.".

Definition ask_for_reason (call : CallbackQuery) (queue_name : string) : M unit :=
  let key := (c_chat call, c_from_id call) in
  emit (delete_message (c_chat call)) ;;;
  state_set key waiting_for_reason ;;;
  state_update_data key
    (fun d => StateData (Some queue_name) (d_from_position d) (d_queue_array d)) ;;;
  emit (send_sticker (c_chat call) SAD_STICKER) ;;;
  emit (send_message (c_chat call) ask_reason_text None) ;;;
  emit (answer_callback (c_from_id call)).

Definition no_group_text : string :=
  "Looks like you don't have a group chat." +:+ nl
  +:+ "Please create a group ("
  +:+ "if you don't already have one) and add me there, so that we can "
  +:+ "solve this problem. Once I'm added to the group, <b>send me the "
  +:+ "reason again</b>.".

Definition call_for_substitute_text (user_name queue_name reason : string) : string :=
  "Hey, turns out <b>" +:+ user_name +:+ "</b> can't do the chore in <b>"
  +:+ queue_name +:+ "</b> "
  +:+ "queue today and they provided the following reason:" +:+ nl +:+ nl
  +:+ reason +:+ nl +:+ nl
  +:+ "Who can do it today instead? If you can't, just ignore this message.".

(** [if not group_chat_id]: [None] and [0] are false. *)
Definition truthy (group_chat_id : option Z) : bool :=
  match group_chat_id with
  | None => false
  | Some c => negb (Z.eqb c 0)
  end.

(** [sched.add_job(skip_chore_today, args=[...], trigger="date",
    run_date=..., id=..., replace_existing=True)]. *)
Definition sched_add_job (j : job) : M unit := fun w =>
  set_sched (add_job j (sched w)) w.

Definition inform_and_resolve (now : Z) (message : Message) : M unit :=
  let key := (m_chat message, m_from_id message) in
  let reason := m_text message in
  let user_name := m_full_name message in
  group_chat_id <~ get_team_chat (m_from_id message) ;;
  team_id <~ get_team_id (m_from_id message) ;;
  if negb (truthy group_chat_id) then
    let keyboard := add_to_group_keyboard in
    emit (send_message (m_chat message) no_group_text (Some keyboard))
  else
    state_data <~ state_get_data key ;;
    queue_name <~ getitem (d_queue_name state_data) ;;
    let later_time := get_later_time now in
    sched_add_job
      (Job (resolving_id queue_name group_chat_id) later_time
         (default 0%Z group_chat_id, user_name, queue_name)) ;;;
    let keyboard :=
      InlineKeyboardMarkup
        [Button "I can do it." ("swap_" +:+ queue_name +:+ "_" +:+ pretty team_id)] in
    emit (send_message (m_chat message)
            "Thank you. Let's try and work this out in your group chat." None) ;;;
    emit (send_message (default 0%Z group_chat_id)
            (call_for_substitute_text user_name queue_name reason)
            (Some keyboard)) ;;;
    state_finish key.

Definition not_member_text : string :=
  "You are not a part of the roommates group, you should get in touch"
  +:+ " with others and get the <b>invite link</b>.".

Definition self_swap_text (user_name : string) : string :=
  "I'm sorry, but you can't swap with yourself, " +:+ user_name +:+ "-san.".

Definition swapped_text (user_name ct_name queue_name : string) : string :=
  "Yaaay, thank you, " +:+ user_name +:+ "! You have swapped places with "
  +:+ ct_name +:+ "."
  +:+ " " +:+ ct_name +:+ " will now do the chore when it's your turn." +:+ nl
  +:+ "You can check "
  +:+ "out the new order in the " +:+ queue_name
  +:+ " queue, by typing <b>/queues</b> "
  +:+ "and then clicking on <b>Show Queue</b>.".

Definition time_limit_line : string :=
  "Someone pressed I can do it after the time limit.".

(** [try: sched.remove_job(...) except JobLookupError: logging.info(...)]. *)
Definition try_remove_job (job_id : string) : M unit := fun w =>
  match remove_job job_id (sched w) with
  | Some js => set_sched js w
  | None => logging_info time_limit_line w
  end.

Definition swap_users (call : CallbackQuery) (queue_name : string) (team_id : Z)
  : M unit :=
  let user_name := c_first_name call in
  group_chat_id <~ get_team_chat (c_from_id call) ;;
  q_array <~ get_queue_array team_id queue_name ;;
  ct <~ unpack (Pure.get_current_turn q_array) ;;
  let '(_, ct_name, ct_pos) := ct in
  match Pure.find_user_pos (c_from_id call) q_array with
  | None =>
      emit (send_sticker (c_chat call) NOPE_STICKER) ;;;
      emit (send_message (c_chat call) not_member_text None) ;;;
      emit (answer_callback (c_from_id call))
  | Some user_pos =>
      if Nat.eqb ct_pos user_pos then
        emit (send_sticker (c_chat call) CONFUSED_STICKER) ;;;
        emit (send_message (c_chat call) (self_swap_text user_name) None) ;;;
        emit (answer_callback (c_from_id call))
      else
        q_array <~ lift (Pure.substitute ct_pos user_pos q_array) ;;
        update_queue team_id queue_name q_array ;;;
        logging_info "Swapped two users successfully" ;;;
        try_remove_job (resolving_id queue_name group_chat_id) ;;;
        emit (delete_reply_markup (c_chat call)) ;;;
        emit (send_sticker (c_chat call) YAY_STICKER) ;;;
        emit (send_message (c_chat call)
                (swapped_text user_name ct_name queue_name) None) ;;;
        emit (answer_callback (c_from_id call))
  end.

(** The scheduler's side of a [trigger="date"] job: once its run date has
    come the job is taken out of the store and run, once.  Before that, and
    for an id that is not in the store, nothing happens. *)
Definition run_job (now : Z) (job_id : string) : M unit := fun w =>
  match lookup_job job_id (sched w) with
  | None => Ret tt w
  | Some j =>
      if (run_date j <=? now)%Z then
        (set_sched (default (sched w) (remove_job job_id (sched w))) ;;;
         let '(group_chat_id, user_name, queue_name) := args j in
         skip_chore_today group_chat_id user_name queue_name) w
      else Ret tt w
  end.

(** ** [reorder_queue.py] *)

Definition drunk_text (first_name : string) : string :=
  "Are you sure that you are not drunk, " +:+ first_name +:+ "-san?".

Definition here_is_queue_text (queue_name queue_list : string) : string :=
  "<b>Here is your " +:+ queue_name +:+ " queue:</b>" +:+ nl +:+ queue_list
  +:+ nl +:+ "If you "
  +:+ "would like the " +:+ queue_name +:+ " queue to have a different order, "
  +:+ "choose the <b>Reorder</b> option below." +:+ nl
  +:+ "Once you are happy with "
  +:+ "the queue order, select <b>Done</b>.".

Definition reorder_queue (call : CallbackQuery) (to_position : nat) : M unit :=
  let key := (c_chat call, c_from_id call) in
  state_data <~ state_get_data key ;;
  from_position <~ getitem (d_from_position state_data) ;;
  queue_array <~ getitem (d_queue_array state_data) ;;
  queue_name <~ getitem (d_queue_name state_data) ;;
  queue_array <~
    (if Nat.eqb from_position to_position then
       let name := c_first_name call in
       emit (send_sticker (c_chat call) CONFUSED_STICKER) ;;;
       emit (send_message (c_chat call) (drunk_text name) None) ;;;
       ret queue_array
     else
       queue_array <~ lift (Pure.reorder from_position to_position queue_array) ;;
       state_update_data key
         (fun d => StateData (d_queue_name d) (d_from_position d) (Some queue_array)) ;;;
       team_id <~ get_team_id (c_from_id call) ;;
       update_queue team_id queue_name queue_array ;;;
       ret queue_array) ;;
  let keyboard :=
    InlineKeyboardMarkup [Button "Reorder" "reorder"; Button "Done" "order_ready"] in
  let queue_list := get_queue_list queue_array in
  emit (edit_text (c_chat call) (here_is_queue_text queue_name queue_list)
          (Some keyboard)) ;;;
  emit (answer_callback (c_from_id call)).

(** ** Notions used by the statements *)

(** What a member adds to [turn_count]. *)
Definition flag (m : member) : nat := if current_turn m then 1 else 0.

(** The member at index [i] is the only one whose [current_turn] is set. *)
Definition turn_at (i : nat) (q : list member) : Prop :=
  i < length q /\
  forall j m, q !! j = Some m -> current_turn m = bool_decide (j = i).

(** [advance] applied [k] times. *)
Fixpoint advance_n (k : nat) (q : list member) : Pure.res (list member) :=
  match k with
  | 0 => inr q
  | S k' => Pure.bind (advance_n k' q) Pure.advance
  end.

(** The world [w] after the events [es] were sent and nothing else happened. *)
Definition sent (es : list event) (w : world) : world :=
  World (users w) (team_chats w) (queues w) (sched w) (fsm w)
    (outbox w ++ es) (log w).

(** The job store holds at most one job under every id. *)
Definition unique_ids (js : list job) : Prop :=
  forall k, jobs_with_id k js <= 1.

(** The queue stored for a team under a name, if any. *)
Definition stored_queue (team_id : Z) (queue_name : string) (w : world)
  : option (list member) :=
  qs ← queues w !! team_id; qs !! queue_name.

(** The three answers of [swap_users]. *)
Definition not_member_reply (call : CallbackQuery) : list event :=
  [send_sticker (c_chat call) NOPE_STICKER;
   send_message (c_chat call) not_member_text None;
   answer_callback (c_from_id call)].

Definition self_swap_reply (call : CallbackQuery) : list event :=
  [send_sticker (c_chat call) CONFUSED_STICKER;
   send_message (c_chat call) (self_swap_text (c_first_name call)) None;
   answer_callback (c_from_id call)].

Definition swapped_reply (call : CallbackQuery) (ct_name queue_name : string)
  : list event :=
  [delete_reply_markup (c_chat call);
   send_sticker (c_chat call) YAY_STICKER;
   send_message (c_chat call)
     (swapped_text (c_first_name call) ct_name queue_name) None;
   answer_callback (c_from_id call)].

(** The id under which [swap_users] looks for the fallback job: it is built
    from the group chat of the responder. *)
Definition swap_job_id (call : CallbackQuery) (queue_name : string) (w : world)
  : string :=
  resolving_id queue_name (team_chats w !! c_from_id call).

(** The world after [swap_users] stored the queue [q'] for a responder it
    accepted: the queue is written, the fallback job is taken out of the
    store if it is still there and its absence is logged otherwise, and the
    responder is thanked. *)
Definition after_swap (call : CallbackQuery) (queue_name : string) (team_id : Z)
  (ct_name : string) (q' : list member) (w : world) : world :=
  let job_id := swap_job_id call queue_name w in
  World (users w) (team_chats w)
    (<[team_id := <[queue_name := q']> (default ∅ (queues w !! team_id))]>
       (queues w))
    (default (sched w) (remove_job job_id (sched w)))
    (fsm w)
    (outbox w ++ swapped_reply call ct_name queue_name)
    (log w ++ "Swapped two users successfully"
       :: match remove_job job_id (sched w) with
          | Some _ => []
          | None => [time_limit_line]
          end).

(** The job that [inform_and_resolve] arms. *)
Definition fallback_job (now : Z) (message : Message) (group_chat_id : Z)
  (queue_name : string) : job :=
  Job (resolving_id queue_name (Some group_chat_id)) (get_later_time now)
      (group_chat_id, m_full_name message, queue_name).

(** The world after [inform_and_resolve] escalated: the fallback job is in
    the store, the initiator is thanked, the group is asked for a
    substitute, and the chat's state is finished. *)
Definition after_escalation (now : Z) (message : Message) (team_id : Z)
  (group_chat_id : Z) (queue_name : string) (w : world) : world :=
  World (users w) (team_chats w) (queues w)
    (add_job (fallback_job now message group_chat_id queue_name) (sched w))
    (delete (m_chat message, m_from_id message) (fsm w))
    (outbox w ++
       [send_message (m_chat message)
          "Thank you. Let's try and work this out in your group chat." None;
        send_message group_chat_id
          (call_for_substitute_text (m_full_name message) queue_name
             (m_text message))
          (Some (InlineKeyboardMarkup
                   [Button "I can do it."
                      ("swap_" +:+ queue_name +:+ "_" +:+ pretty team_id)]))])
    (log w).

(** What [skip_chore_today] sends. *)
Definition skip_notice (group_chat_id : Z) (user_name queue_name : string)
  : list event :=
  [send_sticker group_chat_id WHATEVER_STICKER;
   send_message group_chat_id (skip_text queue_name user_name) None].

(** The world after the fallback job [j] ran. *)
Definition after_timeout (j : job) (w : world) : world :=
  World (users w) (team_chats w) (queues w)
    (default (sched w) (remove_job (id j) (sched w)))
    (fsm w)
    (outbox w ++ skip_notice (args j).1.1 (args j).1.2 (args j).2)
    (log w).

(** The closing message of [reorder_queue]. *)
Definition reorder_summary (call : CallbackQuery) (queue_name : string)
  (queue_array : list member) : list event :=
  [edit_text (c_chat call)
     (here_is_queue_text queue_name (get_queue_list queue_array))
     (Some (InlineKeyboardMarkup
              [Button "Reorder" "reorder"; Button "Done" "order_ready"]));
   answer_callback (c_from_id call)].

(** The world after [reorder_queue] moved a member: the new array is kept
    in the chat's data and written to the team's queues. *)
Definition after_reorder (call : CallbackQuery) (team_id : Z)
  (queue_name : string) (q' : list member) (w : world) : world :=
  let key := (c_chat call, c_from_id call) in
  World (users w) (team_chats w)
    (<[team_id := <[queue_name := q']> (default ∅ (queues w !! team_id))]>
       (queues w))
    (sched w)
    (<[key := Ctx (current_state (get_ctx key w))
                (StateData (d_queue_name (data (get_ctx key w)))
                   (d_from_position (data (get_ctx key w))) (Some q'))]>
       (fsm w))
    (outbox w ++ reorder_summary call queue_name q')
    (log w).

(** The message [message] with another text. *)
Definition with_text (reason : string) (message : Message) : Message :=
  Msg (m_from_id message) (m_full_name message) (m_chat message) reason.

(** The specification's reading of the missing-channel case: the reason that
    was sent can be got back from what [inform_and_resolve] leaves behind. *)
Definition retains_reason (now : Z) (message : Message) (w : world) : Prop :=
  exists recover : world -> string,
    forall reason,
      recover (world_of (inform_and_resolve now (with_text reason message) w))
      = reason.


(** [q'] is [q] after the substitution of [swap_users] for a holder at
    [ct_pos] and a responder at [user_pos]: the two have exchanged their
    places, everybody else stands where they stood, the former holder
    stands in the responder's old slot without the flag, and if the holder
    was the only member with the flag, the only one now is the member in the
    slot after the holder's old slot, or, when the responder came from that
    very slot, the responder in the holder's old slot. *)
Definition substituted (ct_pos user_pos : nat) (q q' : list member) : Prop :=
  length q' = length q /\
  (exists holder responder,
     order q !! ct_pos = Some holder /\
     order q !! user_pos = Some responder /\
     order q' = <[user_pos := holder]> (<[ct_pos := responder]> (order q))) /\
  (exists m, q !! ct_pos = Some m /\
     q' !! user_pos = Some (Pure.with_current_turn false m)) /\
  (turn_at ct_pos q ->
   turn_at (if decide (user_pos = (ct_pos + 1) mod length q)
            then ct_pos else (ct_pos + 1) mod length q) q').




(** The specification's reading of the skip notice: the last thing sent is
    the skip message for the queue, and the name in it is the name of the
    member who holds the turn in the stored queue. *)
Definition skip_notice_names_holder (team_id : Z) (queue_name : string)
  (w : world) : Prop :=
  exists hid ct_name ct_pos group_chat_id,
    (stored_queue team_id queue_name w ≫= Pure.get_current_turn)
    = Some (hid, ct_name, ct_pos) /\
    last (outbox w)
    = Some (send_message group_chat_id (skip_text queue_name ct_name) None).

(** ** Example data: the queue of scenarios A and B *)

Definition Ann : member := Member 1 "Ann" true.
Definition Bo : member := Member 2 "Bo" false.
Definition Cy : member := Member 3 "Cy" false.

(** Team 1 (set up by Ann) with group chat -500 and one queue, "dishes". *)
Definition w0 : world :=
  World (list_to_map [(1, 1); (2, 1); (3, 1)]%Z)
        (list_to_map [(1, -500); (2, -500); (3, -500)]%Z)
        {[ 1%Z := {[ "dishes" := [Ann; Bo; Cy] ]} ]}
        [] ∅ [] [].

(** The same team before the bot was added to a group chat. *)
Definition w0_no_chat : world :=
  World (users w0) ∅ (queues w0) [] (fsm w0) [] [].

Definition call_Ann : CallbackQuery := Call 1 "Ann" 1.
Definition call_Bo : CallbackQuery := Call 2 "Bo" (-500).
Definition call_Cy : CallbackQuery := Call 3 "Cy" (-500).
Definition reason_Ann (reason : string) : Message := Msg 1 "Ann" 1 reason.

(** Ann, who set the team up, picked herself to be moved in "dishes". *)
Definition w_setup : world :=
  World (users w0) (team_chats w0) (queues w0) [] 
        {[ (1, 1)%Z := Ctx (Some setting_up)
                         (StateData (Some "dishes") (Some 0) (Some [Ann; Bo; Cy])) ]}
        [] [].

(** Ann declared inability for "dishes" and is asked for the reason. *)
Definition w_asked : world := world_of (ask_for_reason call_Ann "dishes" w0).

(** The same request before the bot was added to a group chat. *)
Definition w_asked_no_chat : world :=
  world_of (ask_for_reason call_Ann "dishes" w0_no_chat).

(** Ann's reason arrived at time 1000: the conflict is escalated. *)
Definition w_escalated : world :=
  world_of (inform_and_resolve 1000 (reason_Ann "sick") w_asked).

(** Nobody answered and the fallback ran at its deadline. *)
Definition w_timed_out : world :=
  world_of (run_job 8200 (resolving_id "dishes" (Some (-500)%Z)) w_escalated).

(** Eve joined Ann's team after the queue was made: she is in the users
    collection and shares the group chat, but stands in no queue. *)
Definition w0_Eve : world :=
  World (list_to_map [(1, 1); (2, 1); (3, 1); (4, 1)]%Z)
        (list_to_map [(1, -500); (2, -500); (3, -500); (4, -500)]%Z)
        (queues w0) [] ∅ [] [].

Definition call_Eve : CallbackQuery := Call 4 "Eve" (-500).

(** Ann's conflict, escalated in the team that Eve has joined. *)
Definition w_escalated_Eve : world :=
  world_of (inform_and_resolve 1000 (reason_Ann "sick")
              (world_of (ask_for_reason call_Ann "dishes" w0_Eve))).

(** Bo, who does not hold the turn, asks for a substitute, and nobody
    answers until the fallback runs. *)
Definition w_escalated_by_Bo : world :=
  world_of (inform_and_resolve 1000 (Msg 2 "Bo" 2 "busy")
              (world_of (ask_for_reason (Call 2 "Bo" 2) "dishes" w0))).

Definition w_timed_out_by_Bo : world :=
  world_of (run_job 8200 (resolving_id "dishes" (Some (-500)%Z))
              w_escalated_by_Bo).

(** ** Callback data *)

(** [s.split(sep)] for a one-character separator: every occurrence cuts, so
    neighbouring separators give empty pieces and there is always at least
    one piece. *)
Fixpoint split (sep : Ascii.ascii) (s : string) : list string :=
  match s with
  | EmptyString => [EmptyString]
  | String c s' =>
      if Ascii.eqb c sep then EmptyString :: split sep s'
      else match split sep s' with
           | [] => [String c EmptyString]
           | piece :: pieces => String c piece :: pieces
           end
  end.

(** [data.split("_")[-1]]. *)
Definition last_piece (data : string) : string :=
  default EmptyString (last (split "_"%char data)).

(** The value of a decimal digit. *)
Definition digit_of (c : Ascii.ascii) : option N :=
  let n := Ascii.N_of_ascii c in
  if ((48 <=? n) && (n <=? 57))%N then Some (n - 48)%N else None.

(** White space as [int] sees it in ASCII text: tab to carriage return, and
    the blank. *)
Definition int_space (c : Ascii.ascii) : bool :=
  let n := Ascii.N_of_ascii c in
  (((9 <=? n) && (n <=? 13)) || (n =? 32))%N.

Fixpoint all_space (s : string) : bool :=
  match s with
  | EmptyString => true
  | String c s' => int_space c && all_space s'
  end.

Fixpoint skip_space (s : string) : string :=
  match s with
  | EmptyString => EmptyString
  | String c s' => if int_space c then skip_space s' else s
  end.

(** The digits of an [int] literal: at least one digit, single underscores
    between digits, white space only at the end. *)
Fixpoint int_digits (acc : N) (need_digit : bool) (s : string) : option N :=
  match s with
  | EmptyString => if need_digit then None else Some acc
  | String c s' =>
      match digit_of c with
      | Some d => int_digits (acc * 10 + d)%N false s'
      | None =>
          if need_digit then None
          else if Ascii.eqb c "_"%char then int_digits acc true s'
          else if int_space c && all_space s' then Some acc
          else None
      end
  end.

(** [int(s)] on ASCII text, base ten: white space around, an optional sign,
    then the digits; [None] stands for [ValueError].  (The limit that recent
    interpreters put on the number of digits is far above any id or
    position and is not modelled.) *)
Definition int (s : string) : option Z :=
  match skip_space s with
  | String "-"%char r => (fun n => (- Z.of_N n)%Z) <$> int_digits 0 true r
  | String "+"%char r => Z.of_N <$> int_digits 0 true r
  | r => Z.of_N <$> int_digits 0 true r
  end.

(** What reading callback data can raise. *)
Inductive data_exn :=
| DataIndexError
| DataValueError.

(** [swap_users], lines 166-168: [data = call.data.split("_")],
    [queue_name = data[1]], [team_id = int(data[-1])]. *)
Definition swap_data (data : string) : data_exn + (string * Z) :=
  match split "_"%char data !! 1 with
  | None => inl DataIndexError
  | Some queue_name =>
      match int (last_piece data) with
      | None => inl DataValueError
      | Some team_id => inr (queue_name, team_id)
      end
  end.

(** [ask_for_reason], line 85: [queue_name = call.data.split("_")[-1]]. *)
Definition ask_why_data (data : string) : string := last_piece data.

(** [ask_to_position], line 50, and [reorder_queue], line 83:
    [int(call.data.split("_")[-1])]. *)
Definition position_data (data : string) : option Z := int (last_piece data).

(** ** [reorder_queue.py], the two questions *)

(** The loop of [ask_to_pick], lines 27-37: the listing grows by one line
    and the keyboard by one button per member; [index] counts from 1. *)
Fixpoint pick_loop (index : nat) (queue_array : list member)
  (queue_list : string) (buttons : list InlineKeyboardButton)
  : string * list InlineKeyboardButton :=
  match queue_array with
  | [] => (queue_list, buttons)
  | member :: rest =>
      let name := name member in
      pick_loop (S index) rest
        (queue_list +:+ (pretty index +:+ ". " +:+ name +:+ nl))
        (buttons ++ [Button name ("from_" +:+ pretty (index - 1))])
  end.

Definition pick_text (queue_list : string) : string :=
  "<b>Pick the name that you want to move on the list.</b>" +:+ nl +:+ queue_list.

Definition ask_to_pick (call : CallbackQuery) : M unit :=
  let key := (c_chat call, c_from_id call) in
  logging_info "Reordering queue." ;;;
  state_data <~ state_get_data key ;;
  queue_array <~ getitem (d_queue_array state_data) ;;
  let '(queue_list, buttons) := pick_loop 1 queue_array EmptyString [] in
  emit (edit_text (c_chat call) (pick_text queue_list)
          (Some (InlineKeyboardMarkup buttons))) ;;;
  emit (answer_callback (c_from_id call)).

(** The loop of [ask_to_position], lines 60-66. *)
Fixpoint position_loop (index : nat) (queue_array : list member)
  (buttons : list InlineKeyboardButton) : list InlineKeyboardButton :=
  match queue_array with
  | [] => buttons
  | _ :: rest =>
      position_loop (S index) rest
        (buttons ++ [Button (pretty index) ("to_" +:+ pretty (index - 1))])
  end.

Definition position_text (queue_list : string) : string :=
  "<b>Pick the place that you want to move it to on the "
  +:+ "list.</b>" +:+ nl +:+ queue_list.

(** [ask_to_position]; [from_position] is the position read from the
    callback data, here a position that is not negative. *)
Definition ask_to_position (call : CallbackQuery) (from_position : nat) : M unit :=
  let key := (c_chat call, c_from_id call) in
  state_update_data key
    (fun d => StateData (d_queue_name d) (Some from_position) (d_queue_array d)) ;;;
  queue_data <~ state_get_data key ;;
  queue_array <~ getitem (d_queue_array queue_data) ;;
  let queue_list := get_queue_list queue_array in
  let buttons := position_loop 1 queue_array [] in
  emit (edit_text (c_chat call) (position_text queue_list)
          (Some (InlineKeyboardMarkup buttons))) ;;;
  emit (answer_callback (c_from_id call)).

(** The buttons the two questions show for a queue. *)
Definition pick_buttons (queue_array : list member) : list InlineKeyboardButton :=
  imap (fun i m => Button (name m) ("from_" +:+ pretty i)) queue_array.

Definition position_buttons (queue_array : list member)
  : list InlineKeyboardButton :=
  imap (fun i _ => Button (pretty (S i)) ("to_" +:+ pretty i)) queue_array.

(** No underscore occurs in the string. *)
Fixpoint no_underscore (s : string) : bool :=
  match s with
  | EmptyString => true
  | String c s' => negb (Ascii.eqb c "_"%char) && no_underscore s'
  end.

(** The first piece of [s.split("_")]. *)
Definition first_piece (s : string) : string :=
  default EmptyString (head (split "_" s)).

(** The callback data of the button that [inform_and_resolve] puts under its
    call for a substitute. *)
Definition swap_button_data (queue_name : string) (team_id : Z) : string :=
  "swap_" +:+ queue_name +:+ "_" +:+ pretty team_id.

(** The world after [ask_to_pick] asked its question. *)
Definition after_pick (call : CallbackQuery) (queue_array : list member)
  (w : world) : world :=
  World (users w) (team_chats w) (queues w) (sched w) (fsm w)
    (outbox w ++
       [edit_text (c_chat call) (pick_text (get_queue_list queue_array))
          (Some (InlineKeyboardMarkup (pick_buttons queue_array)));
        answer_callback (c_from_id call)])
    (log w ++ ["Reordering queue."]).

(** The world after [ask_to_position] asked its question. *)
Definition after_position (call : CallbackQuery) (from_position : nat)
  (queue_array : list member) (w : world) : world :=
  let key := (c_chat call, c_from_id call) in
  World (users w) (team_chats w) (queues w) (sched w)
    (<[key := Ctx (current_state (get_ctx key w))
                (StateData (d_queue_name (data (get_ctx key w)))
                   (Some from_position) (d_queue_array (data (get_ctx key w))))]>
       (fsm w))
    (outbox w ++
       [edit_text (c_chat call) (position_text (get_queue_list queue_array))
          (Some (InlineKeyboardMarkup (position_buttons queue_array)));
        answer_callback (c_from_id call)])
    (log w).

(** ** Teams, rosters and the queues menu

    [utils/get_db_data.py] ([get_team_members], [get_setup_person]),
    [handlers/main_commands/setup_command.py] ([setup_team]),
    [handlers/main_commands/basic_commands.py] ([provide_list]) and
    [handlers/main_commands/queues_command.py] ([get_admin_keyboard],
    [get_user_keyboard], [list_queues], [ask_which_queue]).

    These read more of the documents than the conflict handlers do, so the
    collections are modelled again with the fields they use; documents keep
    the order of their keys. *)

Module Team.

(** A document of the users collection: ["name"] and ["team_id"], found by
    ["user_id"].  The team id is an integer in every document these modules
    write; 0 is the one that counts as false. *)
Record user_doc := UserDoc {
  u_name : string;
  u_team_id : Z
}.

(** The exceptions these handlers can raise. *)
Inductive exn :=
| TypeError
| ValueError.

Inductive sticker :=
| HERE_STICKER
| HI_STICKER
| NOPE_STICKER.

(** What the bot sends: [message.answer_sticker], [message.answer] (with
    its [disable_web_page_preview]), [message.reply],
    [message.edit_text], [call.answer] and [dp.bot.send_message]. *)
Inductive action :=
| answer_sticker (chat : Z) (s : sticker)
| answer (chat : Z) (body : string) (disable_web_page_preview : bool)
| reply (chat : Z) (body : string) (reply_markup : option keyboard)
| edit_text (chat : Z) (body : string) (reply_markup : option keyboard)
| call_answer (user : Z)
| send_message (chat : Z) (body : string).

(** - [users]: the users collection by ["user_id"];
    - [teams]: the teams collection by ["id"], each with its ["members"],
      a mapping from [str(user_id)] to a name, in document order;
    - [queues]: the queues collection by ["id"], each with its ["queues"],
      a mapping from queue names to queue arrays, in document order. *)
Record db := Db {
  users : gmap Z user_doc;
  teams : gmap Z (list (string * string));
  queues : gmap Z (list (string * list member));
  outbox : list action;
  log : list string
}.

Inductive outcome (A : Type) :=
| Ret (a : A) (d : db)
| Raise (e : exn) (d : db).
Arguments Ret {A} a d.
Arguments Raise {A} e d.

Definition M (A : Type) : Type := db -> outcome A.

Definition ret {A} (a : A) : M A := fun d => Ret a d.

Definition bind {A B} (m : M A) (k : A -> M B) : M B :=
  fun d =>
    match m d with
    | Ret a d' => k a d'
    | Raise e d' => Raise e d'
    end.

Notation "x <~~ m ;; k" := (bind m (fun x => k))
  (at level 100, m at next level, right associativity).
Notation "m ~~> k" := (bind m (fun _ => k))
  (at level 100, right associativity).

Definition db_of {A} (o : outcome A) : db :=
  match o with
  | Ret _ d => d
  | Raise _ d => d
  end.

Definition returned {A} (o : outcome A) : bool :=
  match o with
  | Ret _ _ => true
  | Raise _ _ => false
  end.

Definition emit (a : action) : M unit := fun d =>
  Ret tt (Db (users d) (teams d) (queues d) (outbox d ++ [a]) (log d)).

Definition logging_info (line : string) : M unit := fun d =>
  Ret tt (Db (users d) (teams d) (queues d) (outbox d) (log d ++ [line])).

(** [get_team_id]. *)
Definition get_team_id (user_id : Z) : M Z := fun d =>
  match users d !! user_id with
  | Some data => Ret (u_team_id data) d
  | None => Raise TypeError d
  end.

(** [get_team_members]: [teams.find_one({"id": team_id})["members"]]. *)
Definition get_team_members (team_id : Z) : M (list (string * string)) :=
  fun d =>
  match teams d !! team_id with
  | Some members => Ret members d
  | None => Raise TypeError d
  end.

(** [get_setup_person]:
    [users.find_one({"user_id": int(team_id)})["name"]]. *)
Definition get_setup_person (team_id : Z) : M string := fun d =>
  match users d !! team_id with
  | Some setup_person => Ret (u_name setup_person) d
  | None => Raise TypeError d
  end.

(** [setup_team]: three [update_one(..., {"$set": ...}, upsert=True)]. *)
Definition setup_team (user_id : Z) (user_name : string) : M unit := fun d =>
  let team_id := user_id in
  Ret tt
    (Db (<[user_id := UserDoc user_name team_id]> (users d))
        (<[team_id := [(pretty user_id, user_name)]]> (teams d))
        (<[team_id := []]> (queues d))
        (outbox d) (log d)).

(** An incoming message or callback query: who sent it and in which chat. *)
Record update := Update {
  from_id : Z;
  chat : Z
}.

Definition no_team_text : string :=
  "You are not a part of any team yet. To set up a new team for "
  +:+ "yourself, use the <b>/setup</b> command. If you'd like to join "
  +:+ "someone else's team, simply go through their invite link now.".



Definition get_admin_keyboard : keyboard :=
  InlineKeyboardMarkup
    [Button "Show Queue" "show"; Button "Modify Queue" "modify";
     Button "Pause Queue" "pause"; Button "Resume Queue" "resume";
     Button "Delete Queue" "delete"; Button "Create New Queue" "create"].

Definition get_user_keyboard : keyboard :=
  InlineKeyboardMarkup [Button "Show Queue" "show"].

(** The loops of [list_queues]: one line ["- <i>{queue}</i>\\n"] per queue
    name. *)
Fixpoint queues_list_of (queue_names : list string) : string :=
  match queue_names with
  | [] => EmptyString
  | queue :: rest =>
      "- <i>" +:+ queue +:+ "</i>" +:+ nl +:+ queues_list_of rest
  end.

Definition admin_text (queues_list : string) : string :=
  "<b>Here are all the queues you have set up:</b>" +:+ nl +:+ queues_list
  +:+ nl +:+ "Please choose one of the options below.".

Definition user_text (queues_list : string) : string :=
  "<b>Here are all the queues you have set up:</b>" +:+ nl +:+ queues_list
  +:+ nl +:+ "If you'd like me to show a certain queue, please select <b>Show "
  +:+ "Queue</b>.".

Definition no_queues_text : string :=
  "Looks like you have no queues set up right now." +:+ nl
  +:+ "Don't worry though, you can easily set them up by pressing the "
  +:+ "<b>Create New Queue</b> button below.".

(** [list_queues], the body under its rate limiter; [is_message] tells a
    [types.Message] from a [types.CallbackQuery]. *)
Definition list_queues (is_message : bool) (entity : update) : M unit :=
  logging_info "/queues command issued." ~~>
  team_id <~~ get_team_id (from_id entity) ;;
  if Z.eqb team_id 0 && is_message then
    emit (reply (chat entity) no_team_text None)
  else
    queues_data <~~ (fun d =>
      match queues d !! team_id with
      | Some qs => Ret qs d
      | None => Raise TypeError d
      end) ;;
    let '(text, keyboard) :=
      match queues_data with
      | _ :: _ =>
          let queue_names := map fst queues_data in
          if Z.eqb (from_id entity) team_id
          then (admin_text (queues_list_of queue_names), get_admin_keyboard)
          else (user_text (queues_list_of queue_names), get_user_keyboard)
      | [] =>
          (no_queues_text,
           InlineKeyboardMarkup [Button "Create New Queue" "create"])
      end in
    if is_message then emit (reply (chat entity) text (Some keyboard))
    else
      emit (edit_text (chat entity) text (Some keyboard)) ~~>
      emit (call_answer (from_id entity)).

Definition dq : string := String (Ascii.ascii_of_nat 34) EmptyString.

Definition who_are_you_text : string :=
  "<a href=" +:+ dq +:+ "https://youtu.be/cw9FIeHbdB8?t=4" +:+ dq
  +:+ ">Wait a minute, " +:+ "who are you?</a>".

Definition no_permission_text (operation setup_person : string) : string :=
  "Sorry, you do not have permission to " +:+ operation +:+ " queues." +:+ nl
  +:+ "As "
  +:+ "part of a security measure, only the person who did the initial "
  +:+ "setup has permission to modify/create/delete queues." +:+ nl
  +:+ "In your "
  +:+ "list of roommates, that person is " +:+ setup_person +:+ ".".

Definition select_text (operation queues_list : string) : string :=
  "<b>Please select the queue you'd like me to " +:+ operation +:+ ".</b>"
  +:+ nl +:+ queues_list +:+ nl.

Section AskWhichQueue.

(** [str.capitalize], taken as given. *)
Variable capitalize : string -> string.

(** The loop of [ask_which_queue], lines 197-204. *)
Fixpoint which_loop (operation : string) (queue_names : list string)
  (queues_list : string) (buttons : list InlineKeyboardButton)
  : string * list InlineKeyboardButton :=
  match queue_names with
  | [] => (queues_list, buttons)
  | queue :: rest =>
      which_loop operation rest
        (queues_list +:+ ("- <i>" +:+ capitalize queue +:+ "</i>" +:+ nl))
        (buttons ++ [Button queue (operation +:+ "_" +:+ queue)])
  end.

(** [ask_which_queue]; [operation] is [call.data]. *)
Definition ask_which_queue (call : update) (operation : string) : M unit :=
  let user_id := from_id call in
  team_id <~~ get_team_id user_id ;;
  fun d =>
  match get_setup_person team_id d with
  | Raise TypeError d' =>
      (emit (answer (chat call) who_are_you_text true) ~~>
       emit (call_answer user_id)) d'
  | Raise e d' => Raise e d'
  | Ret setup_person d' =>
      ((if negb (String.eqb operation "show") && negb (Z.eqb user_id team_id)
        then
          emit (answer_sticker (chat call) NOPE_STICKER) ~~>
          emit (answer (chat call) (no_permission_text operation setup_person)
                  false)
        else
          queues_data <~~ (fun d =>
            match queues d !! team_id with
            | Some qs => Ret qs d
            | None => Raise TypeError d
            end) ;;
          let queue_names := map fst queues_data in
          let '(queues_list, buttons) :=
            which_loop operation queue_names EmptyString [] in
          emit (edit_text (chat call) (select_text operation queues_list)
                  (Some (InlineKeyboardMarkup
                           (buttons ++ [Button "Back" "back"]))))) ~~>
       emit (call_answer user_id)) d'
  end.

End AskWhichQueue.

(** [message.chat.type]. *)
Inductive chat_type :=
| private
| group
| supergroup
| channel.

(** A [/start] message: sender, the sender's full name, chat, kind of chat
    and [message.get_args()] (empty when there are none). *)
Record start_message := Start {
  s_from_id : Z;
  s_full_name : string;
  s_chat : Z;
  s_chat_type : chat_type;
  s_args : string
}.

(** [{"$set": {"members.<key>": name}}] on the members of a team: the entry
    is replaced where it stands or added at the end. *)
Fixpoint set_member (key name : string) (members : list (string * string))
  : list (string * string) :=
  match members with
  | [] => [(key, name)]
  | (k, v) :: rest =>
      if String.eqb k key then (key, name) :: rest
      else (k, v) :: set_member key name rest
  end.

Definition signed_up_text (user_name : string) : string :=
  user_name +:+ " just signed up with your invite link.".

Definition hello_invited_text : string :=
  "Hello there!" +:+ nl +:+ nl
  +:+ "My name is <b>Tohru</b> and I will try my best to "
  +:+ "make your and your roommates' lives a bit easier." +:+ nl
  +:+ "Since you have "
  +:+ "signed up with a link shared by your roommate, you don't have "
  +:+ "to do anything. Your roommate will do all the setup." +:+ nl +:+ nl
  +:+ "I'm looking forward to working with you.".

Definition thank_text (setup_person : string) : string :=
  "P.S. Maybe thank " +:+ setup_person +:+ ", because they are willing to do "
  +:+ "the whole setup and everyone appreciates a sincere 'thank you'.".

Definition hi_everyone_text : string :=
  "Hi everyone!" +:+ nl +:+ nl
  +:+ "My name is Tohru and I will try me best to make "
  +:+ "your lives a bit easier." +:+ nl
  +:+ "Whenever there is a problem with a queue"
  +:+ ", I will let you know here so that we can figure out a solution "
  +:+ "together." +:+ nl +:+ nl
  +:+ "I'm very excited about working with you all.".

Definition hello_text : string :=
  "Hello there!" +:+ nl
  +:+ "My name is Tohru and I will try my best to make your "
  +:+ "and your roommates' lives a bit easier." +:+ nl
  +:+ "To get started with the "
  +:+ "setup, use the <b>/setup</b> command.".

Section Greet.

(** [aiogram.utils.deep_linking.decode_payload], taken as given; [None]
    stands for the [ValueError] of a payload that does not decode. *)
Variable decode_payload : string -> option string.

(** [get_confirmation] of [other_core_modules], taken as given. *)
Variable get_confirmation : Z -> Z -> M unit.

Definition is_empty (s : string) : bool :=
  match s with
  | EmptyString => true
  | String _ _ => false
  end.

Definition is_private (t : chat_type) : bool :=
  match t with
  | private => true
  | _ => false
  end.

(** [greet], the body under its rate limiter. *)
Definition greet (message : start_message) : M unit :=
  logging_info "/start command issued." ~~>
  let args := s_args message in
  emit (answer_sticker (s_chat message) HI_STICKER) ~~>
  let user_id := s_from_id message in
  let user_name := s_full_name message in
  team_id <~~ get_team_id user_id ;;
  if negb (is_empty args) && is_private (s_chat_type message)
     && negb (Z.eqb team_id 0)
  then get_confirmation user_id team_id
  else if negb (is_empty args) && is_private (s_chat_type message) then
    team_id <~~ (fun d =>
      match decode_payload args with
      | None => Raise ValueError d
      | Some payload =>
          match int payload with
          | None => Raise ValueError d
          | Some team_id => Ret team_id d
          end
      end) ;;
    (fun d =>
       Ret tt (Db (<[user_id := UserDoc user_name team_id]> (users d))
                 (<[team_id := set_member (pretty user_id) user_name
                                 (default [] (teams d !! team_id))]> (teams d))
                 (queues d) (outbox d) (log d))) ~~>
    setup_person <~~ get_setup_person team_id ;;
    emit (send_message team_id (signed_up_text user_name)) ~~>
    emit (answer (s_chat message) hello_invited_text false) ~~>
    emit (answer (s_chat message) (thank_text setup_person) false)
  else
    match s_chat_type message with
    | group | supergroup =>
        emit (answer (s_chat message) hi_everyone_text false)
    | _ => emit (answer (s_chat message) hello_text false)
    end.

End Greet.

(** The actions that put a keyboard with the given button data on screen. *)
Definition offers (data : string) (a : action) : Prop :=
  match a with
  | reply _ _ (Some (InlineKeyboardMarkup buttons))
  | edit_text _ _ (Some (InlineKeyboardMarkup buttons)) =>
      data ∈ map callback_data buttons
  | _ => False
  end.

End Team.

(** The listing and the buttons that [ask_which_queue] builds for the
    queue names of a team. *)
Fixpoint which_listing (capitalize : string -> string)
  (queue_names : list string) : string :=
  match queue_names with
  | [] => EmptyString
  | queue :: rest =>
      "- <i>" +:+ capitalize queue +:+ "</i>" +:+ nl
      +:+ which_listing capitalize rest
  end.

Definition which_buttons (operation : string) (queue_names : list string)
  : list InlineKeyboardButton :=
  map (fun queue => Button queue (operation +:+ "_" +:+ queue)) queue_names
  ++ [Button "Back" "back"].

(** The buttons of the queues menu that change queues. *)
Definition admin_only : list string := ["modify"; "pause"; "resume"; "delete"].

(** A team of two, set up by Ann, with two queues. *)
Definition d_two : Team.db :=
  Team.Db (list_to_map [(1%Z, Team.UserDoc "Ann" 1); (2%Z, Team.UserDoc "Bo" 1)])
          {[ 1%Z := [("1", "Ann"); ("2", "Bo")] ]}
          {[ 1%Z := [("dishes", [Ann; Bo]); ("trash", [Bo; Ann])] ]}
          [] [].

(** Ann's team and Eve, who has a users document but no team yet. *)
Definition d_invited : Team.db :=
  Team.Db (list_to_map [(1%Z, Team.UserDoc "Ann" 1); (5%Z, Team.UserDoc "Eve" 0)])
          {[ 1%Z := [("1", "Ann")] ]}
          {[ 1%Z := [("dishes", [Ann])] ]}
          [] [].

(** * Properties *)

(** ** Counting turn holders *)

Section TurnCount.

Implicit Types (q : list member) (m x : member) (i j : nat).

Lemma turn_count_app q1 q2 :
  turn_count (q1 ++ q2) = turn_count q1 + turn_count q2.
Proof. induction q1 as [|m q1 IH]; simpl; [done|]. rewrite IH. lia. Qed.

Lemma turn_count_Permutation q1 q2 :
  q1 ≡ₚ q2 -> turn_count q1 = turn_count q2.
Proof.
  induction 1 as [|m q1 q2 _ IH|m1 m2 q|q1 q2 q3 _ IH1 _ IH2]; simpl.
  - done.
  - by rewrite IH.
  - lia.
  - by rewrite IH1.
Qed.

(** Overwriting slot [i]: the old member's flag leaves, the new one's
    enters. *)
Lemma turn_count_insert q i m x :
  q !! i = Some m ->
  turn_count (<[i := x]> q) + flag m = turn_count q + flag x.
Proof.
  revert i. induction q as [|m0 q IH]; intros [|i] Hi; simplify_eq/=.
  - unfold flag. lia.
  - specialize (IH _ Hi). lia.
Qed.

Lemma flag_le_turn_count q i m : q !! i = Some m -> flag m <= turn_count q.
Proof.
  revert i. induction q as [|m0 q IH]; intros [|i] Hi; simplify_eq/=.
  - unfold flag. lia.
  - specialize (IH _ Hi). lia.
Qed.

Lemma turn_count_delete q i m :
  q !! i = Some m -> turn_count (delete i q) + flag m = turn_count q.
Proof.
  intros Hi. rewrite (turn_count_Permutation q (m :: delete i q)).
  - simpl. unfold flag. lia.
  - by apply delete_Permutation.
Qed.

Lemma turn_count_insert_at q i x :
  turn_count (Pure.list_insert_at i x q) = turn_count q + flag x.
Proof.
  unfold Pure.list_insert_at.
  rewrite <- (take_drop i q) at 3.
  rewrite !turn_count_app. simpl. unfold flag. lia.
Qed.

End TurnCount.

(** ** Finding the holder *)

Section Holder.

Implicit Types (q : list member) (m : member) (i j k : nat).

Lemma get_current_turn_from_Some k q u nm p :
  Pure.get_current_turn_from k q = Some (u, nm, p) ->
  exists i m, p = k + i /\ q !! i = Some m /\ current_turn m = true /\
              u = user_id m /\ nm = name m /\
              forall j m', j < i -> q !! j = Some m' -> current_turn m' = false.
Proof.
  revert k. induction q as [|m0 q IH]; intros k H; simpl in H; [done|].
  destruct (current_turn m0) eqn:E.
  - simplify_eq. exists 0, m0. repeat split; [lia | done | lia].
  - apply IH in H as (i & m & -> & Hi & Hm & -> & -> & Hlt).
    exists (S i), m. repeat split; [lia | done..|].
    intros [|j] m' Hj Hm'; simplify_eq/=; [done|].
    apply (Hlt j); [lia | done].
Qed.

Lemma get_current_turn_Some q u nm ct_pos :
  Pure.get_current_turn q = Some (u, nm, ct_pos) ->
  exists m, q !! ct_pos = Some m /\ current_turn m = true /\
            u = user_id m /\ nm = name m.
Proof.
  intros H. apply get_current_turn_from_Some in H as (i & m & -> & ? & ? & ? & ? & _).
  by exists m.
Qed.

Lemma get_current_turn_from_None k q :
  Pure.get_current_turn_from k q = None -> turn_count q = 0.
Proof.
  revert k. induction q as [|m0 q IH]; intros k H; simpl in *; [done|].
  destruct (current_turn m0); [done|]. by rewrite (IH _ H).
Qed.

Lemma turn_at_lookup i q :
  turn_at i q -> exists m, q !! i = Some m /\ current_turn m = true.
Proof.
  intros [Hlt Hall]. destruct (lookup_lt_is_Some_2 q i Hlt) as [m Hm].
  exists m. split; [done|]. rewrite (Hall _ _ Hm). by apply bool_decide_eq_true.
Qed.

Lemma turn_at_get_current_turn i q :
  turn_at i q ->
  exists m, q !! i = Some m /\
            Pure.get_current_turn q = Some (user_id m, name m, i).
Proof.
  intros Hat. destruct (turn_at_lookup _ _ Hat) as (m & Hm & Hflag).
  exists m. split; [done|].
  destruct (Pure.get_current_turn q) as [[[u nm] p]|] eqn:E.
  - apply get_current_turn_Some in E as (m' & Hm' & Hflag' & -> & ->).
    destruct Hat as [_ Hall]. rewrite (Hall _ _ Hm') in Hflag'.
    apply bool_decide_eq_true in Hflag'. by simplify_eq.
  - apply get_current_turn_from_None in E.
    pose proof (flag_le_turn_count _ _ _ Hm) as Hle.
    unfold flag in Hle. rewrite Hflag in Hle. lia.
Qed.

Lemma turn_count_0_flags q :
  turn_count q = 0 -> forall j m, q !! j = Some m -> current_turn m = false.
Proof.
  intros H0 j m Hm. pose proof (flag_le_turn_count _ _ _ Hm) as Hle.
  unfold flag in Hle. destruct (current_turn m); [lia | done].
Qed.

Lemma turn_at_turn_count i q : turn_at i q -> turn_count q = 1.
Proof.
  revert i. induction q as [|m q IH]; intros i [Hlt Hall]; simpl in *; [lia|].
  destruct i as [|i].
  - rewrite (Hall 0 m eq_refl). simpl.
    assert (turn_count q = 0) as ->; [|done].
    clear -Hall. induction q as [|m' q IH]; simpl; [done|].
    rewrite (Hall 1 m' eq_refl). simpl. apply IH.
    intros [|j] m0 Hj; [apply (Hall 0 _ Hj)|].
    rewrite (Hall (S (S j)) m0 Hj). by rewrite !bool_decide_eq_false_2.
  - rewrite (Hall 0 m eq_refl). simpl. apply (IH i). split; [lia|].
    intros j m0 Hj. rewrite (Hall (S j) m0 Hj).
    apply bool_decide_ext. lia.
Qed.

Lemma turn_count_turn_at q : turn_count q = 1 -> exists i, turn_at i q.
Proof.
  induction q as [|m q IH]; simpl; [done|]. intros H.
  destruct (current_turn m) eqn:E.
  - exists 0. split; [simpl; lia|]. intros [|j] m0 Hj; simplify_eq/=; [done|].
    apply (turn_count_0_flags q ltac:(lia) j m0 Hj).
  - destruct IH as [i [Hlt Hall]]; [done|]. exists (S i). split; [simpl; lia|].
    intros [|j] m0 Hj; simplify_eq/=; [done|].
    rewrite (Hall _ _ Hj). apply bool_decide_ext. lia.
Qed.

End Holder.

(** ** The reassignment step *)

Section Reassign.

Implicit Types (q : list member) (m : member) (i j ct_pos user_pos : nat).

Lemma order_length q : length (order q) = length q.
Proof. unfold order. by rewrite length_map. Qed.

Lemma order_insert_same q i m x :
  q !! i = Some m -> user_id x = user_id m -> name x = name m ->
  order (<[i := x]> q) = order q.
Proof.
  intros Hi Hu Hn. unfold order. rewrite list_fmap_insert.
  apply list_insert_id. rewrite list_lookup_fmap, Hi. simpl. by rewrite Hu, Hn.
Qed.

Lemma next_pos_lt ct_pos q : 0 < length q -> (ct_pos + 1) mod length q < length q.
Proof. intros. apply Nat.mod_upper_bound. lia. Qed.

Lemma next_pos_inr ct_pos q :
  0 < length q -> Pure.next_pos ct_pos q = inr ((ct_pos + 1) mod length q).
Proof. unfold Pure.next_pos. destruct (length q); [lia | done]. Qed.

(** The reassignment never raises when [ct_pos] is inside the queue, and it
    writes exactly two flags. *)
Lemma reassign_turn_inr ct_pos q m :
  q !! ct_pos = Some m ->
  exists m',
    <[ct_pos := Pure.with_current_turn false m]> q
      !! ((ct_pos + 1) mod length q) = Some m' /\
    Pure.reassign_turn ct_pos q
    = inr (<[(ct_pos + 1) mod length q := Pure.with_current_turn true m']>
             (<[ct_pos := Pure.with_current_turn false m]> q)).
Proof.
  intros Hm. pose proof (lookup_lt_Some _ _ _ Hm) as Hlt.
  set (q1 := <[ct_pos := Pure.with_current_turn false m]> q).
  assert (length q1 = length q) as Hlen by apply length_insert.
  destruct (lookup_lt_is_Some_2 q1 ((ct_pos + 1) mod length q)) as [m' Hm'].
  { rewrite Hlen. apply next_pos_lt. lia. }
  exists m'. split; [done|].
  unfold Pure.reassign_turn, Pure.set_turn. rewrite Hm. simpl. fold q1.
  rewrite next_pos_inr by lia. simpl. rewrite Hlen, Hm'. done.
Qed.

Lemma reassign_turn_length ct_pos q q' :
  Pure.reassign_turn ct_pos q = inr q' -> length q' = length q.
Proof.
  unfold Pure.reassign_turn, Pure.set_turn, Pure.next_pos. intros H.
  destruct (q !! ct_pos) as [m|]; simplify_eq/=.
  rewrite length_insert in H. destruct (length q) eqn:E; simplify_eq/=.
  destruct (_ !! _); simplify_eq/=. by rewrite !length_insert.
Qed.

Lemma reassign_turn_order ct_pos q q' :
  Pure.reassign_turn ct_pos q = inr q' -> order q' = order q.
Proof.
  intros H. destruct (q !! ct_pos) as [m|] eqn:Hm.
  - destruct (reassign_turn_inr _ _ _ Hm) as (m' & Hm' & Heq).
    rewrite Heq in H. simplify_eq.
    rewrite (order_insert_same _ _ m') by done.
    by rewrite (order_insert_same _ _ m).
  - unfold Pure.reassign_turn, Pure.set_turn in H. by rewrite Hm in H.
Qed.

(** After the reassignment the only holder is the member in the next slot. *)
Lemma reassign_turn_turn_at ct_pos q :
  turn_at ct_pos q ->
  exists q', Pure.reassign_turn ct_pos q = inr q' /\
             turn_at ((ct_pos + 1) mod length q) q' /\
             order q' = order q.
Proof.
  intros Hat. destruct (turn_at_lookup _ _ Hat) as (m & Hm & _).
  destruct (reassign_turn_inr _ _ _ Hm) as (m' & Hm' & Heq).
  eexists. split; [exact Heq|]. split; [|by eapply reassign_turn_order].
  destruct Hat as [Hlt Hall].
  set (nxt := (ct_pos + 1) mod length q) in *.
  assert (nxt < length q) as Hnxt by (apply next_pos_lt; lia).
  split; [by rewrite !length_insert|].
  intros j x Hj.
  destruct (decide (j = nxt)) as [->|Hne].
  - rewrite list_lookup_insert_eq in Hj by (by rewrite length_insert).
    simplify_eq/=. by rewrite bool_decide_eq_true_2.
  - rewrite list_lookup_insert_ne in Hj by done.
    rewrite bool_decide_eq_false_2 by done.
    destruct (decide (j = ct_pos)) as [->|Hne'].
    + rewrite list_lookup_insert_eq in Hj by done. by simplify_eq/=.
    + rewrite list_lookup_insert_ne in Hj by done.
      rewrite (Hall _ _ Hj). by rewrite bool_decide_eq_false_2.
Qed.

(** The reassignment keeps the number of holders at one. *)
Lemma reassign_turn_count ct_pos q m :
  q !! ct_pos = Some m -> current_turn m = true -> turn_count q = 1 ->
  exists q', Pure.reassign_turn ct_pos q = inr q' /\ turn_count q' = 1.
Proof.
  intros Hm Hflag Hone.
  destruct (reassign_turn_inr _ _ _ Hm) as (m' & Hm' & Heq).
  eexists. split; [exact Heq|].
  pose proof (turn_count_insert q ct_pos m (Pure.with_current_turn false m) Hm) as H1.
  pose proof (turn_count_insert _ _ m' (Pure.with_current_turn true m') Hm') as H2.
  pose proof (flag_le_turn_count _ _ _ Hm') as H3.
  unfold flag in *. simpl in *. rewrite Hflag in H1.
  destruct (current_turn m'); lia.
Qed.

(** Exchanging two slots moves members together with their flags. *)
Lemma swap_positions_inr ct_pos user_pos q a b :
  q !! user_pos = Some a -> q !! ct_pos = Some b ->
  Pure.swap_positions ct_pos user_pos q
  = inr (<[user_pos := b]> (<[ct_pos := a]> q)).
Proof. intros Ha Hb. unfold Pure.swap_positions. by rewrite Ha, Hb. Qed.

Lemma swap_positions_count ct_pos user_pos q q' :
  Pure.swap_positions ct_pos user_pos q = inr q' -> turn_count q' = turn_count q.
Proof.
  unfold Pure.swap_positions. intros H.
  destruct (q !! user_pos) as [a|] eqn:Ha; [|done].
  destruct (q !! ct_pos) as [b|] eqn:Hb; simplify_eq/=.
  pose proof (turn_count_insert q ct_pos b a Hb) as H1.
  assert (<[ct_pos := a]> q !! user_pos = Some a) as Ha'.
  { destruct (decide (ct_pos = user_pos)) as [->|Hne].
    - apply list_lookup_insert_eq. by eapply lookup_lt_Some.
    - by rewrite list_lookup_insert_ne. }
  pose proof (turn_count_insert _ user_pos a b Ha') as H2. lia.
Qed.

Lemma swap_positions_length ct_pos user_pos q q' :
  Pure.swap_positions ct_pos user_pos q = inr q' -> length q' = length q.
Proof.
  unfold Pure.swap_positions. intros H.
  destruct (q !! user_pos); [|done]. destruct (q !! ct_pos); simplify_eq/=.
  by rewrite !length_insert.
Qed.

(** The substitution of [swap_users] never raises on positions inside the
    queue and keeps the number of holders at one. *)
Lemma substitute_count ct_pos user_pos q m :
  q !! ct_pos = Some m -> current_turn m = true -> turn_count q = 1 ->
  user_pos < length q ->
  exists q', Pure.substitute ct_pos user_pos q = inr q' /\ turn_count q' = 1 /\
             length q' = length q.
Proof.
  intros Hm Hflag Hone Hlt.
  destruct (reassign_turn_count _ _ _ Hm Hflag Hone) as (q1 & Hq1 & Hc1).
  pose proof (reassign_turn_length _ _ _ Hq1) as Hlen.
  destruct (lookup_lt_is_Some_2 q1 user_pos) as [a Ha]; [lia|].
  destruct (lookup_lt_is_Some_2 q1 ct_pos) as [b Hb].
  { rewrite Hlen. by eapply lookup_lt_Some. }
  exists (<[user_pos := b]> (<[ct_pos := a]> q1)).
  assert (Pure.substitute ct_pos user_pos q
          = inr (<[user_pos := b]> (<[ct_pos := a]> q1))) as Heq.
  { unfold Pure.substitute. rewrite Hq1. simpl. by apply swap_positions_inr. }
  split; [done|]. split.
  - rewrite <- Hc1. eapply swap_positions_count. by apply swap_positions_inr.
  - by rewrite !length_insert.
Qed.

End Reassign.

(** ** Advancing the turn *)

Section Advance.

Implicit Types (q : list member) (m : member) (i j k : nat).

Lemma advance_turn_at i q :
  turn_at i q ->
  exists q', Pure.advance q = inr q' /\
             turn_at ((i + 1) mod length q) q' /\
             order q' = order q.
Proof.
  intros Hat. destruct (turn_at_get_current_turn _ _ Hat) as (m & _ & Hget).
  unfold Pure.advance. rewrite Hget. by apply reassign_turn_turn_at.
Qed.

Lemma advance_n_turn_at k i q :
  turn_at i q ->
  exists q', advance_n k q = inr q' /\
             turn_at ((i + k) mod length q) q' /\
             order q' = order q.
Proof.
  intros Hat. induction k as [|k IH]; simpl.
  - exists q. split; [done|]. split; [|done].
    rewrite Nat.add_0_r, Nat.mod_small; [done | apply Hat].
  - destruct IH as (qk & -> & Hk & Hord). simpl.
    destruct (advance_turn_at _ _ Hk) as (q' & -> & Hat' & Hord').
    exists q'. split; [done|]. split; [|congruence].
    assert (length qk = length q) as Hlen.
    { by rewrite <- (order_length qk), Hord, order_length. }
    rewrite Hlen in Hat'.
    destruct Hat as [Hlt _].
    rewrite Nat.Div0.add_mod_idemp_l in Hat'.
    by replace (i + S k) with (i + k + 1) by lia.
Qed.

(** A queue is determined by its order and the position of its only
    holder. *)
Lemma turn_at_order_eq i q q' :
  turn_at i q -> turn_at i q' -> order q = order q' -> q = q'.
Proof.
  intros [_ Hq] [_ Hq'] Hord. apply list_eq. intros j.
  assert (order q !! j = order q' !! j) as Hj by by rewrite Hord.
  unfold order in Hj. rewrite !list_lookup_fmap in Hj.
  destruct (q !! j) as [m|] eqn:Hm, (q' !! j) as [m'|] eqn:Hm'; simplify_eq/=;
    [|done].
  f_equal. specialize (Hq _ _ Hm). specialize (Hq' _ _ Hm').
  destruct m, m'. simplify_eq/=. congruence.
Qed.

End Advance.

(** ** Moving a member *)

Section Reorder.

Implicit Types (q : list member) (m : member) (i j : nat).

Lemma reorder_inr from_position to_position q item_to_move :
  q !! from_position = Some item_to_move ->
  Pure.reorder from_position to_position q
  = inr (Pure.list_insert_at to_position item_to_move (delete from_position q)).
Proof. intros H. unfold Pure.reorder, Pure.pop. by rewrite H. Qed.

Lemma reorder_raises from_position to_position q :
  length q <= from_position ->
  Pure.reorder from_position to_position q = inl IndexError.
Proof.
  intros H. unfold Pure.reorder, Pure.pop. by rewrite lookup_ge_None_2.
Qed.

Lemma list_insert_at_Permutation i x q : Pure.list_insert_at i x q ≡ₚ x :: q.
Proof.
  unfold Pure.list_insert_at. rewrite <- Permutation_middle.
  by rewrite take_drop.
Qed.

(** The reordered queue holds the same member records, flags included. *)
Lemma reorder_Permutation from_position to_position q q' :
  Pure.reorder from_position to_position q = inr q' -> q' ≡ₚ q.
Proof.
  unfold Pure.reorder, Pure.pop. intros H.
  destruct (q !! from_position) as [m|] eqn:Hm; simplify_eq/=.
  rewrite list_insert_at_Permutation. symmetry. by apply delete_Permutation.
Qed.

Lemma take_drop_delete i x q :
  q !! i = Some x -> Pure.list_insert_at i x (delete i q) = q.
Proof.
  unfold Pure.list_insert_at. revert i.
  induction q as [|m q IH]; intros [|i] H; simplify_eq/=; [done|].
  f_equal. by apply IH.
Qed.

(** Taking a member out and putting it back into the same slot gives the
    queue back. *)
Lemma reorder_same i q : i < length q -> Pure.reorder i i q = inr q.
Proof.
  intros Hlt. destruct (lookup_lt_is_Some_2 q i Hlt) as [m Hm].
  rewrite (reorder_inr _ _ _ _ Hm). f_equal. by apply take_drop_delete.
Qed.

End Reorder.

(** ** Finding the responder *)

Section Responder.

Implicit Types (q : list member) (m : member) (i k p : nat) (uid : Z).


Lemma user_pos_loop_Some uid k q acc p :
  Pure.user_pos_loop uid k q acc = Some p ->
  (acc = Some p /\ uid ∉ map user_id q) \/
  (exists i m, p = k + i /\ q !! i = Some m /\ user_id m = uid).
Proof.
  revert k acc. induction q as [|m q IH]; intros k acc H; simpl in *.
  - left. split; [done|]. apply not_elem_of_nil.
  - apply IH in H as [[Hacc Hnot]|(i & m' & -> & Hi & Hid)].
    + destruct (Z.eqb_spec (user_id m) uid) as [Heq|Hne].
      * right. exists 0, m. simplify_eq. split; [lia | done].
      * left. split; [done|]. apply not_elem_of_cons. by split.
    + right. exists (S i), m'. split; [lia | done].
Qed.




(** A position that is found holds a member with the responder's id. *)
Lemma find_user_pos_Some uid q p :
  Pure.find_user_pos uid q = Some p ->
  exists m, q !! p = Some m /\ user_id m = uid.
Proof.
  intros H. apply user_pos_loop_Some in H as [[? _]|(i & m & -> & ? & ?)]; [done|].
  by exists m.
Qed.


End Responder.

(** ** What [swap_users] does in each case *)

Section SwapUsers.

Context (w : world) (call : CallbackQuery) (queue_name : string) (team_id : Z).
Context (qs : gmap string (list member)) (q : list member).
Context (hid : Z) (ct_name : string) (ct_pos : nat).
Hypothesis Hteam : queues w !! team_id = Some qs.
Hypothesis Hqueue : qs !! queue_name = Some q.
Hypothesis Hturn : Pure.get_current_turn q = Some (hid, ct_name, ct_pos).

Lemma swap_users_not_member :
  Pure.find_user_pos (c_from_id call) q = None ->
  swap_users call queue_name team_id w = Ret tt (sent (not_member_reply call) w).
Proof.
  intros Hpos. unfold swap_users, mbind, get_team_chat, get_queue_array.
  rewrite Hteam, Hqueue, Hturn. simpl. rewrite Hpos.
  unfold mbind, emit, sent. simpl. rewrite <- !app_assoc. reflexivity.
Qed.

Lemma swap_users_self :
  Pure.find_user_pos (c_from_id call) q = Some ct_pos ->
  swap_users call queue_name team_id w = Ret tt (sent (self_swap_reply call) w).
Proof.
  intros Hpos. unfold swap_users, mbind, get_team_chat, get_queue_array.
  rewrite Hteam, Hqueue, Hturn. simpl. rewrite Hpos, Nat.eqb_refl.
  unfold mbind, emit, sent. simpl. rewrite <- !app_assoc. reflexivity.
Qed.

Lemma swap_users_valid user_pos q' :
  Pure.find_user_pos (c_from_id call) q = Some user_pos ->
  user_pos <> ct_pos ->
  Pure.substitute ct_pos user_pos q = inr q' ->
  swap_users call queue_name team_id w
  = Ret tt (after_swap call queue_name team_id ct_name q' w).
Proof.
  intros Hpos Hne Hsub. unfold swap_users, mbind, get_team_chat, get_queue_array.
  rewrite Hteam, Hqueue, Hturn. simpl. rewrite Hpos.
  rewrite (proj2 (Nat.eqb_neq ct_pos user_pos)) by done.
  rewrite Hsub. unfold after_swap, swap_job_id, try_remove_job. simpl.
  destruct (remove_job _ (sched w)) as [js|]; simpl;
    unfold swapped_reply, mbind, emit, logging_info; simpl;
    rewrite <- !app_assoc; reflexivity.
Qed.

End SwapUsers.

(** ** The job store *)

Section Jobs.

Implicit Types (j : job) (js : list job) (k : string).

Lemma jobs_with_id_add_job_same j js :
  jobs_with_id (id j) js <= 1 -> jobs_with_id (id j) (add_job j js) = 1.
Proof.
  induction js as [|j' js IH]; simpl; intros Hle.
  - by rewrite String.eqb_refl.
  - destruct (String.eqb_spec (id j') (id j)) as [Heq|Hne]; simpl.
    + rewrite String.eqb_refl. lia.
    + rewrite (proj2 (String.eqb_neq _ _)) by done. simpl. apply IH. lia.
Qed.

Lemma jobs_with_id_add_job_other j js k :
  k <> id j -> jobs_with_id k (add_job j js) = jobs_with_id k js.
Proof.
  intros Hk. induction js as [|j' js IH]; simpl.
  - by rewrite (proj2 (String.eqb_neq _ _)).
  - destruct (String.eqb_spec (id j') (id j)) as [Heq|Hne]; simpl.
    + rewrite Heq. by rewrite (proj2 (String.eqb_neq (id j) k)).
    + by rewrite IH.
Qed.

Lemma lookup_job_add_job_same j js : lookup_job (id j) (add_job j js) = Some j.
Proof.
  induction js as [|j' js IH]; simpl.
  - by rewrite String.eqb_refl.
  - destruct (String.eqb_spec (id j') (id j)) as [Heq|Hne]; simpl.
    + by rewrite String.eqb_refl.
    + by rewrite (proj2 (String.eqb_neq _ _)).
Qed.


Lemma unique_ids_add_job j js : unique_ids js -> unique_ids (add_job j js).
Proof.
  intros Hu k. destruct (decide (k = id j)) as [->|Hne].
  - by rewrite jobs_with_id_add_job_same.
  - by rewrite jobs_with_id_add_job_other.
Qed.

Lemma lookup_job_None k js : lookup_job k js = None <-> jobs_with_id k js = 0.
Proof.
  induction js as [|j js IH]; simpl; [done|].
  destruct (String.eqb (id j) k); simpl; [split; [done | lia] | done].
Qed.

Lemma remove_job_None k js : remove_job k js = None <-> lookup_job k js = None.
Proof.
  induction js as [|j js IH]; simpl; [done|].
  destruct (String.eqb (id j) k); [done|].
  destruct (remove_job k js); simpl; [|tauto].
  split; [done|]. intros H. apply IH in H. done.
Qed.

Lemma remove_job_Some k js js' :
  remove_job k js = Some js' ->
  length js = S (length js') /\
  forall k', jobs_with_id k' js
             = (if String.eqb k k' then 1 else 0) + jobs_with_id k' js'.
Proof.
  revert js'. induction js as [|j js IH]; intros js' H; simpl in *; [done|].
  destruct (String.eqb_spec (id j) k) as [Heq|Hne].
  - simplify_eq. split; [done|]. intros k'. done.
  - destruct (remove_job k js) as [js0|]; simplify_eq/=.
    destruct (IH _ eq_refl) as [Hlen Hcnt]. split; [by rewrite Hlen|].
    intros k'. rewrite Hcnt. lia.
Qed.

Lemma unique_ids_remove_job k js js' :
  unique_ids js -> remove_job k js = Some js' ->
  unique_ids js' /\ jobs_with_id k js' = 0.
Proof.
  intros Hu Hrm. destruct (remove_job_Some _ _ _ Hrm) as [_ Hcnt]. split.
  - intros k'. specialize (Hu k'). rewrite Hcnt in Hu. lia.
  - specialize (Hu k). rewrite Hcnt, String.eqb_refl in Hu. lia.
Qed.

(** Whether the job was there or not, after the guarded removal of
    [swap_users] and of the scheduler it is not. *)
Lemma removed_job_gone k js :
  unique_ids js ->
  unique_ids (default js (remove_job k js)) /\
  jobs_with_id k (default js (remove_job k js)) = 0.
Proof.
  intros Hu. destruct (remove_job k js) as [js'|] eqn:E; simpl.
  - by eapply unique_ids_remove_job.
  - split; [done|]. by apply lookup_job_None, remove_job_None.
Qed.


Lemma lookup_job_id k js j : lookup_job k js = Some j -> id j = k.
Proof.
  induction js as [|j' js IH]; simpl; [done|].
  destruct (String.eqb_spec (id j') k); [|done]. by intros [= ->].
Qed.

End Jobs.

(** ** What [inform_and_resolve] and the fallback do *)

Section Escalation.

Context (now : Z) (message : Message) (w : world) (team_id : Z).
Hypothesis Huser : users w !! m_from_id message = Some team_id.

Lemma inform_and_resolve_no_channel :
  truthy (team_chats w !! m_from_id message) = false ->
  inform_and_resolve now message w
  = Ret tt (sent [send_message (m_chat message) no_group_text
                    (Some add_to_group_keyboard)] w).
Proof.
  intros Hno. unfold inform_and_resolve, mbind, get_team_chat, get_team_id.
  rewrite Huser. simpl. rewrite Hno. reflexivity.
Qed.

Lemma inform_and_resolve_escalates group_chat_id queue_name :
  team_chats w !! m_from_id message = Some group_chat_id ->
  group_chat_id <> 0%Z ->
  d_queue_name (data (get_ctx (m_chat message, m_from_id message) w))
  = Some queue_name ->
  inform_and_resolve now message w
  = Ret tt (after_escalation now message team_id group_chat_id queue_name w).
Proof.
  intros Hchat Hnz Hname.
  unfold inform_and_resolve, mbind, get_team_chat, get_team_id, state_get_data.
  rewrite Huser, Hchat. simpl.
  rewrite (proj2 (Z.eqb_neq _ _)) by done. simpl. rewrite Hname. simpl.
  unfold after_escalation, fallback_job. rewrite <- !app_assoc. reflexivity.
Qed.

End Escalation.

Section Fallback.

Context (now : Z) (job_id : string) (w : world).

(** The fallback writes neither queues nor users nor states nor logs. *)
Lemma run_job_frame :
  let w' := world_of (run_job now job_id w) in
  queues w' = queues w /\ users w' = users w /\ team_chats w' = team_chats w /\
  fsm w' = fsm w /\ log w' = log w.
Proof.
  unfold run_job. destruct (lookup_job job_id (sched w)) as [j|]; [|done].
  destruct (run_date j <=? now)%Z; [|done].
  destruct (args j) as [[c u] qn]. done.
Qed.

Lemma run_job_due j :
  lookup_job job_id (sched w) = Some j -> (run_date j <= now)%Z ->
  run_job now job_id w = Ret tt (after_timeout j w).
Proof.
  intros Hj Hdue. unfold run_job. rewrite Hj.
  rewrite (proj2 (Z.leb_le _ _)) by done.
  unfold after_timeout, skip_notice. rewrite (lookup_job_id _ _ _ Hj).
  destruct (args j) as [[c u] qn]. simpl.
  unfold skip_chore_today, mbind, emit. simpl. rewrite <- !app_assoc.
  reflexivity.
Qed.

Lemma run_job_early j :
  lookup_job job_id (sched w) = Some j -> (now < run_date j)%Z ->
  run_job now job_id w = Ret tt w.
Proof.
  intros Hj Hearly. unfold run_job. rewrite Hj.
  by rewrite (proj2 (Z.leb_gt _ _)).
Qed.

Lemma run_job_absent :
  lookup_job job_id (sched w) = None -> run_job now job_id w = Ret tt w.
Proof. intros Hj. unfold run_job. by rewrite Hj. Qed.

End Fallback.

(** ** What [reorder_queue] does in each case *)

Section ReorderQueue.

Context (call : CallbackQuery) (w : world).
Context (from_position : nat) (queue_array : list member) (queue_name : string).
Hypothesis Hfrom :
  d_from_position (data (get_ctx (c_chat call, c_from_id call) w))
  = Some from_position.
Hypothesis Harray :
  d_queue_array (data (get_ctx (c_chat call, c_from_id call) w))
  = Some queue_array.
Hypothesis Hname :
  d_queue_name (data (get_ctx (c_chat call, c_from_id call) w))
  = Some queue_name.

Lemma reorder_queue_same :
  reorder_queue call from_position w
  = Ret tt (sent ([send_sticker (c_chat call) CONFUSED_STICKER;
                   send_message (c_chat call) (drunk_text (c_first_name call)) None]
                  ++ reorder_summary call queue_name queue_array) w).
Proof.
  unfold reorder_queue, mbind, state_get_data.
  rewrite Hfrom, Harray, Hname. simpl. rewrite Nat.eqb_refl.
  unfold mbind, emit, sent. simpl. rewrite <- !app_assoc. reflexivity.
Qed.

Lemma reorder_queue_moves to_position team_id q' :
  from_position <> to_position ->
  Pure.reorder from_position to_position queue_array = inr q' ->
  users w !! c_from_id call = Some team_id ->
  reorder_queue call to_position w
  = Ret tt (after_reorder call team_id queue_name q' w).
Proof.
  intros Hne Hre Huser. unfold reorder_queue, mbind, state_get_data.
  rewrite Hfrom, Harray, Hname. simpl.
  rewrite (proj2 (Nat.eqb_neq _ _)) by done. rewrite Hre. simpl.
  unfold mbind, get_team_id. simpl. rewrite Huser. simpl.
  unfold after_reorder, reorder_summary, mbind, emit, get_ctx. simpl.
  rewrite <- !app_assoc. reflexivity.
Qed.

Lemma reorder_queue_raises to_position :
  from_position <> to_position ->
  length queue_array <= from_position ->
  reorder_queue call to_position w = Raise IndexError w.
Proof.
  intros Hne Hge. unfold reorder_queue, mbind, state_get_data.
  rewrite Hfrom, Harray, Hname. simpl.
  rewrite (proj2 (Nat.eqb_neq _ _)) by done.
  by rewrite reorder_raises.
Qed.

End ReorderQueue.

Lemma stored_queue_update team_id queue_name q' (w : world) us cs js f ob lg :
  stored_queue team_id queue_name
    (World us cs
       (<[team_id := <[queue_name := q']> (default ∅ (queues w !! team_id))]>
          (queues w))
       js f ob lg)
  = Some q'.
Proof.
  unfold stored_queue. simpl. rewrite lookup_insert_eq. simpl.
  by rewrite lookup_insert_eq.
Qed.

(** * The claims *)

(** ** Turn advancement is cyclic *)

(** C9: advancing clears [current_turn] at the holder's index [i] and sets it
    at index [(i + 1) mod N] without touching the member order; on a queue
    of [N] members with exactly one holder, [N] advancements never raise and
    give back the very same queue, so the turn is with its original holder
    and the order is unchanged. *)
Theorem advance_cyclic (q : list member) :
  turn_count q = 1 ->
  (forall i, turn_at i q ->
     exists q', Pure.advance q = inr q' /\
                turn_at ((i + 1) mod length q) q' /\
                order q' = order q) /\
  advance_n (length q) q = inr q.
Proof.
  intros Hone. split; [intros i; apply advance_turn_at|].
  destruct (turn_count_turn_at _ Hone) as [i Hat].
  destruct (advance_n_turn_at (length q) i q Hat) as (q' & Hq' & Hat' & Hord).
  rewrite Hq'. f_equal. apply (turn_at_order_eq i); [|done..].
  replace (i + length q) with (i + 1 * length q) in Hat' by lia.
  rewrite Nat.Div0.mod_add, Nat.mod_small in Hat'; [done | apply Hat].
Qed.

Lemma advance_cyclic_witness :
  turn_count [Ann; Bo; Cy] = 1 /\ advance_n 3 [Ann; Bo; Cy] = inr [Ann; Bo; Cy].
Proof.
  split; [reflexivity|].
  exact (proj2 (advance_cyclic [Ann; Bo; Cy] eq_refl)).
Defined.

(** ** The single-holder invariant *)

(** C2: on a queue in which exactly one member has [current_turn] set, the
    advancement, the substitution of [swap_users] (from the holder's position
    to any position of the queue) and the move of [reorder_queue] (from any
    position of the queue) all go through without raising and leave exactly
    one member with [current_turn] set. *)
Theorem single_turn_preserved (q : list member) :
  turn_count q = 1 ->
  (exists q', Pure.advance q = inr q' /\ turn_count q' = 1) /\
  (forall hid ct_name ct_pos user_pos,
     Pure.get_current_turn q = Some (hid, ct_name, ct_pos) ->
     user_pos < length q ->
     exists q', Pure.substitute ct_pos user_pos q = inr q' /\ turn_count q' = 1) /\
  (forall from_position to_position,
     from_position < length q ->
     exists q', Pure.reorder from_position to_position q = inr q' /\
                turn_count q' = 1).
Proof.
  intros Hone. repeat split.
  - destruct (turn_count_turn_at _ Hone) as [i Hat].
    destruct (advance_turn_at _ _ Hat) as (q' & Hq' & Hat' & _).
    exists q'. split; [done|]. by eapply turn_at_turn_count.
  - intros hid ct_name ct_pos user_pos Hget Hlt.
    apply get_current_turn_Some in Hget as (m & Hm & Hflag & _).
    destruct (substitute_count _ _ _ _ Hm Hflag Hone Hlt) as (q' & ? & ? & _).
    by exists q'.
  - intros from_position to_position Hlt.
    destruct (lookup_lt_is_Some_2 q _ Hlt) as [m Hm].
    eexists. split; [by apply reorder_inr|].
    rewrite turn_count_insert_at.
    pose proof (turn_count_delete _ _ _ Hm). lia.
Qed.

Lemma single_turn_preserved_witness :
  turn_count [Ann; Bo; Cy] = 1 /\
  exists q', Pure.substitute 0 1 [Ann; Bo; Cy] = inr q' /\ turn_count q' = 1.
Proof.
  split; [reflexivity|].
  apply (proj1 (proj2 (single_turn_preserved [Ann; Bo; Cy] eq_refl))
           1%Z "Ann" 0 1); [reflexivity | simpl; lia].
Defined.

(** X8: [swap_users] as a whole keeps the invariant of the stored queue,
    whatever the responder: a rejected attempt stores nothing and an
    accepted one stores the substituted queue. *)
Lemma swap_users_single_turn (w : world) call queue_name team_id q :
  stored_queue team_id queue_name w = Some q ->
  turn_count q = 1 ->
  exists q', returned (swap_users call queue_name team_id w) = true /\
    stored_queue team_id queue_name
      (world_of (swap_users call queue_name team_id w)) = Some q' /\
    turn_count q' = 1.
Proof.
  intros Hq Hone. unfold stored_queue in Hq.
  destruct (queues w !! team_id) as [qs|] eqn:Hteam; simplify_eq/=.
  destruct (turn_count_turn_at _ Hone) as [ct_pos Hat].
  destruct (turn_at_get_current_turn _ _ Hat) as (m & Hm & Hget).
  destruct (Pure.find_user_pos (c_from_id call) q) as [user_pos|] eqn:Hpos.
  - destruct (decide (user_pos = ct_pos)) as [->|Hne].
    + rewrite (swap_users_self w call _ _ _ _ _ _ _ Hteam Hq Hget Hpos).
      exists q. simpl. unfold stored_queue. simpl. by rewrite Hteam.
    + destruct (find_user_pos_Some _ _ _ Hpos) as (mu & Hmu & _).
      apply lookup_lt_Some in Hmu.
      destruct (turn_at_lookup _ _ Hat) as (m' & Hm' & Hflag). simplify_eq.
      destruct (substitute_count _ _ _ _ Hm Hflag Hone Hmu) as (q' & Hsub & ? & _).
      rewrite (swap_users_valid w call _ _ _ _ _ _ _ Hteam Hq Hget _ _ Hpos Hne Hsub).
      exists q'. simpl. split; [done|]. split; [|done].
      unfold after_swap. apply stored_queue_update.
  - rewrite (swap_users_not_member w call _ _ _ _ _ _ _ Hteam Hq Hget Hpos).
    exists q. simpl. unfold stored_queue. simpl. by rewrite Hteam.
Qed.

(** ** Reordering *)

(** C10: [reorder_queue] with a destination equal to the source stores
    nothing and leaves the queue array of the chat as it is; with a
    different destination it takes the member at [from_position] out and
    puts it back at [to_position], keeps the result and stores it; the
    result holds the same member records, so no [current_turn] flag is
    changed. *)
Theorem reorder_frame (call : CallbackQuery) (w : world)
  (from_position to_position : nat) (queue_array : list member)
  (queue_name : string) (team_id : Z) :
  let key := (c_chat call, c_from_id call) in
  d_from_position (data (get_ctx key w)) = Some from_position ->
  d_queue_array (data (get_ctx key w)) = Some queue_array ->
  d_queue_name (data (get_ctx key w)) = Some queue_name ->
  users w !! c_from_id call = Some team_id ->
  from_position < length queue_array ->
  let w' := world_of (reorder_queue call to_position w) in
  returned (reorder_queue call to_position w) = true /\
  (from_position = to_position ->
     queues w' = queues w /\ fsm w' = fsm w /\
     Pure.reorder from_position to_position queue_array = inr queue_array) /\
  (from_position <> to_position ->
     exists item_to_move q',
       queue_array !! from_position = Some item_to_move /\
       q' = (take to_position (delete from_position queue_array)
               ++ item_to_move
               :: drop to_position (delete from_position queue_array))%list /\
       Pure.reorder from_position to_position queue_array = inr q' /\
       q' ≡ₚ queue_array /\
       stored_queue team_id queue_name w' = Some q' /\
       d_queue_array (data (get_ctx key w')) = Some q').
Proof.
  intros key Hfrom Harray Hname Huser Hlt w'.
  destruct (lookup_lt_is_Some_2 queue_array _ Hlt) as [item Hitem].
  pose proof (reorder_inr _ to_position _ _ Hitem) as Hre.
  destruct (decide (from_position = to_position)) as [<-|Hne].
  - subst w'.
    rewrite (reorder_queue_same call w _ _ _ Hfrom Harray Hname).
    split; [done|]. split; [|done]. intros _. repeat split.
    by apply reorder_same.
  - subst w'.
    rewrite (reorder_queue_moves call w _ _ _ Hfrom Harray Hname _ _ _ Hne Hre Huser).
    split; [done|]. split; [done|]. intros _.
    eexists item, _. split; [done|]. split; [reflexivity|].
    split; [done|]. split; [by eapply reorder_Permutation|]. split.
    + unfold after_reorder. apply stored_queue_update.
    + unfold after_reorder, get_ctx. simpl. by rewrite lookup_insert_eq.
Qed.

Lemma reorder_frame_witness :
  let w' := world_of (reorder_queue call_Ann 2 w_setup) in
  returned (reorder_queue call_Ann 2 w_setup) = true /\
  (0 = 2 ->
     queues w' = queues w_setup /\ fsm w' = fsm w_setup /\
     Pure.reorder 0 2 [Ann; Bo; Cy] = inr [Ann; Bo; Cy]) /\
  (0 <> 2 ->
     exists item_to_move q',
       [Ann; Bo; Cy] !! 0 = Some item_to_move /\
       q' = (take 2 (delete 0 [Ann; Bo; Cy])
               ++ item_to_move :: drop 2 (delete 0 [Ann; Bo; Cy]))%list /\
       Pure.reorder 0 2 [Ann; Bo; Cy] = inr q' /\
       q' ≡ₚ [Ann; Bo; Cy] /\
       stored_queue 1 "dishes" w' = Some q' /\
       d_queue_array (data (get_ctx (1, 1)%Z w')) = Some q').
Proof.
  apply (reorder_frame call_Ann w_setup 0 2 [Ann; Bo; Cy] "dishes" 1);
    [vm_compute; reflexivity.. | simpl; lia].
Defined.

(** ** Where the turn is after a substitution *)

Section SubstituteTurn.

Implicit Types (q : list member) (m : member) (i j h ct_pos user_pos : nat).

(** Exchanging two slots carries the flag along: a holder in one of the two
    slots ends in the other one, any other holder stays. *)
Lemma swap_positions_turn_at h ct_pos user_pos q q' :
  turn_at h q ->
  Pure.swap_positions ct_pos user_pos q = inr q' ->
  turn_at (if decide (h = ct_pos) then user_pos
           else if decide (h = user_pos) then ct_pos else h) q'.
Proof.
  intros [Hlt Hall] Hswap. unfold Pure.swap_positions in Hswap.
  destruct (q !! user_pos) as [a|] eqn:Ha; [|done].
  destruct (q !! ct_pos) as [b|] eqn:Hb; simplify_eq/=.
  pose proof (lookup_lt_Some _ _ _ Ha) as Hu.
  pose proof (lookup_lt_Some _ _ _ Hb) as Hc.
  split.
  { rewrite !length_insert.
    destruct (decide (h = ct_pos)), (decide (h = user_pos)); lia. }
  intros j x Hj.
  destruct (decide (j = user_pos)) as [->|Hju].
  - rewrite list_lookup_insert_eq in Hj by (by rewrite length_insert).
    simplify_eq. rewrite (Hall _ _ Hb).
    apply bool_decide_ext.
    destruct (decide (h = ct_pos)), (decide (h = user_pos)); lia.
  - rewrite list_lookup_insert_ne in Hj by done.
    destruct (decide (j = ct_pos)) as [->|Hjc].
    + rewrite list_lookup_insert_eq in Hj by done. simplify_eq.
      rewrite (Hall _ _ Ha). apply bool_decide_ext.
      destruct (decide (h = ct_pos)), (decide (h = user_pos)); lia.
    + rewrite list_lookup_insert_ne in Hj by done.
      rewrite (Hall _ _ Hj). apply bool_decide_ext.
      destruct (decide (h = ct_pos)), (decide (h = user_pos)); lia.
Qed.

Lemma next_pos_ne ct_pos n : ct_pos < n -> 2 <= n -> (ct_pos + 1) mod n <> ct_pos.
Proof.
  intros Hlt Hn. destruct (decide (ct_pos + 1 < n)) as [Hs|Hs].
  - rewrite Nat.mod_small by done. lia.
  - replace (ct_pos + 1) with n by lia. rewrite Nat.Div0.mod_same. lia.
Qed.

(** X9: where the substitution of [swap_users] leaves the turn: in the slot
    after the holder's old slot, unless the substitute stood in that very
    slot; then the flag moves back with the substitute into the holder's old
    slot. *)
Lemma substitute_turn_at ct_pos user_pos q :
  turn_at ct_pos q -> user_pos < length q -> user_pos <> ct_pos ->
  exists q', Pure.substitute ct_pos user_pos q = inr q' /\
    turn_at (if decide (user_pos = (ct_pos + 1) mod length q)
             then ct_pos else (ct_pos + 1) mod length q) q'.
Proof.
  intros Hat Hlt Hne.
  destruct (reassign_turn_turn_at _ _ Hat) as (q1 & Hq1 & Hat1 & Hord).
  pose proof (reassign_turn_length _ _ _ Hq1) as Hlen.
  destruct (lookup_lt_is_Some_2 q1 user_pos) as [a Ha]; [lia|].
  destruct (lookup_lt_is_Some_2 q1 ct_pos) as [b Hb].
  { rewrite Hlen. apply Hat. }
  pose proof (swap_positions_inr _ _ _ _ _ Ha Hb) as Hswap.
  eexists. split.
  { unfold Pure.substitute. rewrite Hq1. simpl. exact Hswap. }
  pose proof (swap_positions_turn_at _ _ _ _ _ Hat1 Hswap) as Hat'.
  assert ((ct_pos + 1) mod length q <> ct_pos) as Hnxt.
  { apply next_pos_ne; [apply Hat|]. destruct Hat. lia. }
  repeat case_decide; simplify_eq; done.
Qed.

(** The substitute and the former holder have exchanged their places. *)
Lemma substitute_order ct_pos user_pos q q' a b :
  order q !! ct_pos = Some a -> order q !! user_pos = Some b ->
  Pure.substitute ct_pos user_pos q = inr q' ->
  order q' = <[user_pos := a]> (<[ct_pos := b]> (order q)).
Proof.
  intros Ha Hb Hsub. unfold Pure.substitute in Hsub.
  destruct (Pure.reassign_turn ct_pos q) as [e|q1] eqn:Hq1; simplify_eq/=.
  pose proof (reassign_turn_order _ _ _ Hq1) as Hord.
  unfold Pure.swap_positions in Hsub.
  destruct (q1 !! user_pos) as [x|] eqn:Hx; [|done].
  destruct (q1 !! ct_pos) as [y|] eqn:Hy; simplify_eq/=.
  rewrite <- Hord in Ha, Hb |- *. clear Hord. unfold order in *.
  rewrite list_lookup_fmap in Ha, Hb. rewrite Hy in Ha. rewrite Hx in Hb.
  simplify_eq/=. by rewrite !list_fmap_insert.
Qed.

End SubstituteTurn.

(** ** Scenario A *)

(** C1: in scenario A (queue Ann, Bo, Cy; Ann holds the turn; Bo answers
    "I can do it") [swap_users] stores the order Bo, Ann, Cy, and the turn
    is held by Bo at index 0: the flag was set on Bo in slot 1 and moved
    with him in the exchange.  The member in the slot after Ann's old slot,
    Ann herself, does not hold it. *)
Theorem scenario_A_substitution :
  let w' := world_of (swap_users call_Bo "dishes" 1 w_escalated) in
  returned (swap_users call_Bo "dishes" 1 w_escalated) = true /\
  names <$> stored_queue 1 "dishes" w' = Some ["Bo"; "Ann"; "Cy"] /\
  (stored_queue 1 "dishes" w' ≫= Pure.get_current_turn) = Some (2%Z, "Bo", 0) /\
  (stored_queue 1 "dishes" w' ≫= fun q => current_turn <$> q !! 1) = Some false.
Proof. vm_compute. done. Qed.

(** The same substitution by Cy, who does not stand next to Ann, leaves the
    turn in the slot after Ann's old slot, as the claim describes. *)
Example scenario_A_substitution_by_Cy :
  let w' := world_of (swap_users call_Cy "dishes" 1 w_escalated) in
  names <$> stored_queue 1 "dishes" w' = Some ["Cy"; "Bo"; "Ann"] /\
  (stored_queue 1 "dishes" w' ≫= Pure.get_current_turn) = Some (2%Z, "Bo", 1).
Proof. vm_compute. done. Qed.

(** ** Validity of a substitution attempt *)

Lemma substitute_total ct_pos user_pos (q : list member) m :
  q !! ct_pos = Some m -> user_pos < length q ->
  exists q', Pure.substitute ct_pos user_pos q = inr q'.
Proof.
  intros Hm Hlt. destruct (reassign_turn_inr _ _ _ Hm) as (m' & _ & Hq1).
  pose proof (reassign_turn_length _ _ _ Hq1) as Hlen.
  pose proof (lookup_lt_Some _ _ _ Hm) as Hct.
  destruct (lookup_lt_is_Some_2 _ user_pos (eq_ind_r (lt user_pos) Hlt Hlen))
    as [a Ha].
  destruct (lookup_lt_is_Some_2 _ ct_pos (eq_ind_r (lt ct_pos) Hct Hlen))
    as [b Hb].
  eexists. unfold Pure.substitute. rewrite Hq1. simpl.
  by apply swap_positions_inr.
Qed.

Lemma stored_queue_Some team_id queue_name (w : world) q :
  stored_queue team_id queue_name w = Some q ->
  exists qs, queues w !! team_id = Some qs /\ qs !! queue_name = Some q.
Proof.
  unfold stored_queue. destruct (queues w !! team_id) as [qs|]; [|done].
  intros H. by exists qs.
Qed.

(** The substitution never raises on two different slots of the queue, and
    its result is the queue with the two members exchanged and the turn
    reassigned. *)
Lemma substitute_substituted ct_pos user_pos (q : list member) m mu :
  q !! ct_pos = Some m -> q !! user_pos = Some mu -> user_pos <> ct_pos ->
  exists q', Pure.substitute ct_pos user_pos q = inr q' /\
             substituted ct_pos user_pos q q'.
Proof.
  intros Hm Hmu Hne.
  pose proof (lookup_lt_Some _ _ _ Hm) as Hct.
  pose proof (lookup_lt_Some _ _ _ Hmu) as Hup.
  assert ((ct_pos + 1) mod length q <> ct_pos) as Hnxt.
  { apply next_pos_ne; lia. }
  destruct (reassign_turn_inr _ _ _ Hm) as (m' & Hm' & Hq1).
  set (q1 := <[(ct_pos + 1) mod length q := Pure.with_current_turn true m']>
               (<[ct_pos := Pure.with_current_turn false m]> q)) in *.
  assert (length q1 = length q) as Hlen.
  { subst q1. by rewrite !length_insert. }
  assert (q1 !! ct_pos = Some (Pure.with_current_turn false m)) as Hb.
  { subst q1. rewrite list_lookup_insert_ne by done.
    by apply list_lookup_insert_eq. }
  destruct (lookup_lt_is_Some_2 q1 user_pos) as [a Ha]; [lia|].
  pose proof (swap_positions_inr _ _ _ _ _ Ha Hb) as Hswap.
  assert (Pure.substitute ct_pos user_pos q
          = inr (<[user_pos := Pure.with_current_turn false m]>
                   (<[ct_pos := a]> q1))) as Hsub.
  { unfold Pure.substitute. rewrite Hq1. simpl. exact Hswap. }
  eexists. split; [exact Hsub|]. split; [|split; [|split]].
  - rewrite !length_insert. exact Hlen.
  - exists (user_id m, name m), (user_id mu, name mu).
    assert (order q !! ct_pos = Some (user_id m, name m)) as Hom.
    { unfold order. by rewrite list_lookup_fmap, Hm. }
    assert (order q !! user_pos = Some (user_id mu, name mu)) as Homu.
    { unfold order. by rewrite list_lookup_fmap, Hmu. }
    split; [done|]. split; [done|].
    by apply (substitute_order ct_pos user_pos q).
  - exists m. split; [done|].
    apply list_lookup_insert_eq. rewrite length_insert. lia.
  - intros Hat.
    destruct (reassign_turn_turn_at _ _ Hat) as (q1' & Hq1' & Hat1 & _).
    rewrite Hq1 in Hq1'. injection Hq1' as <-.
    pose proof (swap_positions_turn_at _ _ _ _ _ Hat1 Hswap) as Hat'.
    repeat case_decide; simplify_eq; done.
Qed.


(** The queue after a substitution differs from the queue before it as soon
    as the responder is not the holder. *)
Lemma substituted_ne ct_pos user_pos (q q' : list member) m mu :
  q !! ct_pos = Some m -> q !! user_pos = Some mu -> user_pos <> ct_pos ->
  user_id mu <> user_id m ->
  substituted ct_pos user_pos q q' -> q' <> q.
Proof.
  intros Hm Hmu Hne Hid (_ & (a & b & Ha & Hb & Hord) & _) ->.
  assert (order q !! ct_pos = Some (user_id m, name m)) as Hom.
  { unfold order. by rewrite list_lookup_fmap, Hm. }
  assert (order q !! user_pos = Some (user_id mu, name mu)) as Homu.
  { unfold order. by rewrite list_lookup_fmap, Hmu. }
  apply (f_equal (fun l => l !! ct_pos)) in Hord.
  rewrite list_lookup_insert_ne in Hord by done.
  rewrite list_lookup_insert_eq in Hord.
  - simplify_eq.
  - rewrite order_length. by eapply lookup_lt_Some.
Qed.




Example team_member_rejected_scenario :
  users w_escalated_Eve !! c_from_id call_Eve = Some 1%Z /\
  team_chats w_escalated_Eve !! c_from_id call_Eve = Some (-500)%Z /\
  swap_users call_Eve "dishes" 1 w_escalated_Eve
  = Ret tt (sent (not_member_reply call_Eve) w_escalated_Eve) /\
  stored_queue 1 "dishes"
    (world_of (swap_users call_Eve "dishes" 1 w_escalated_Eve))
  = Some [Ann; Bo; Cy].
Proof. vm_compute. done. Qed.

(** A rejected attempt does not close the conflict: after Ann's own attempt
    and one by a stranger, Bo's is accepted. *)
Example rejected_then_accepted :
  let w1 := world_of (swap_users call_Ann "dishes" 1 w_escalated) in
  let w2 := world_of (swap_users (Call 9 "Dee" (-500)) "dishes" 1 w1) in
  let w3 := world_of (swap_users call_Bo "dishes" 1 w2) in
  stored_queue 1 "dishes" w2 = Some [Ann; Bo; Cy] /\
  sched w2 = sched w_escalated /\
  names <$> stored_queue 1 "dishes" w3 = Some ["Bo"; "Ann"; "Cy"] /\
  sched w3 = [].
Proof. vm_compute. done. Qed.

(** ** Cancelling the fallback *)


(** C8: an accepted substitution stores the queue with holder and responder
    exchanged and the turn reassigned, and thanks the responder, whether or
    not the fallback job is still in the store.  The job is looked for under
    the id built from the queue name and the responder's group chat, which
    is the id the escalation armed it under when the responder's group chat
    is the one of the escalation.  If the job is there it is taken out; if it
    is not (the fallback already ran), the only trace is the log line about
    the time limit: the handler returns normally, the responder gets the
    same answer and the job store is as before.  Either way no job is left
    under the id. *)
Theorem late_cancel_tolerated (w : world) (call : CallbackQuery)
  (queue_name : string) (team_id : Z) (q : list member)
  (hid : Z) (ct_name : string) (ct_pos user_pos : nat) :
  stored_queue team_id queue_name w = Some q ->
  Pure.get_current_turn q = Some (hid, ct_name, ct_pos) ->
  Pure.find_user_pos (c_from_id call) q = Some user_pos ->
  user_pos <> ct_pos ->
  unique_ids (sched w) ->
  let job_id := swap_job_id call queue_name w in
  let o := swap_users call queue_name team_id w in
  let w' := world_of o in
  exists q',
    Pure.substitute ct_pos user_pos q = inr q' /\
    substituted ct_pos user_pos q q' /\
    (c_from_id call <> hid -> q' <> q) /\
    returned o = true /\
    stored_queue team_id queue_name w' = Some q' /\
    outbox w' = (outbox w ++ swapped_reply call ct_name queue_name)%list /\
    jobs_with_id job_id (sched w') = 0 /\
    (forall now message group_chat_id,
       team_chats w !! c_from_id call = Some group_chat_id ->
       id (fallback_job now message group_chat_id queue_name) = job_id /\
       lookup_job (id (fallback_job now message group_chat_id queue_name))
         (sched w') = None) /\
    (forall k, k <> job_id -> jobs_with_id k (sched w') = jobs_with_id k (sched w)) /\
    (lookup_job job_id (sched w) = None ->
       sched w' = sched w /\
       log w' = (log w ++ ["Swapped two users successfully"; time_limit_line])%list) /\
    (forall j, lookup_job job_id (sched w) = Some j ->
       remove_job job_id (sched w) = Some (sched w') /\
       log w' = (log w ++ ["Swapped two users successfully"])%list).
Proof.
  intros Hq Hget Hpos Hne Huniq job_id o w'.
  destruct (stored_queue_Some _ _ _ _ Hq) as (qs & Hteam & Hqueue).
  pose proof (get_current_turn_Some _ _ _ _ Hget) as (m & Hm & _ & Hid & _).
  destruct (find_user_pos_Some _ _ _ Hpos) as (mu & Hmu & Hmuid).
  destruct (substitute_substituted ct_pos user_pos q m mu Hm Hmu Hne)
    as (q' & Hsub & Hsubd).
  exists q'. split; [done|]. split; [done|]. split.
  { intros Hdiff. apply (substituted_ne ct_pos user_pos q q' m mu); try done.
    by rewrite Hmuid, <- Hid. }
  subst w' o.
  rewrite (swap_users_valid w call _ _ _ _ _ _ _ Hteam Hqueue Hget _ _ Hpos Hne Hsub).
  simpl. split; [done|]. split; [apply stored_queue_update|]. split; [done|].
  fold job_id.
  assert (jobs_with_id job_id (default (sched w) (remove_job job_id (sched w))) = 0)
    as Hgone by (by apply removed_job_gone).
  split; [done|]. split.
  { intros now message group_chat_id Hchat.
    assert (id (fallback_job now message group_chat_id queue_name) = job_id) as Hjid.
    { subst job_id. unfold swap_job_id. by rewrite Hchat. }
    split; [done|].
    assert (lookup_job (id (fallback_job now message group_chat_id queue_name))
              (default (sched w) (remove_job job_id (sched w))) = None) as Hnone.
    { rewrite Hjid. by apply lookup_job_None. }
    exact Hnone. }
  split.
  { intros k Hk. destruct (remove_job job_id (sched w)) as [js|] eqn:Hrm; [|done].
    destruct (remove_job_Some _ _ _ Hrm) as [_ Hcnt]. simpl.
    rewrite (Hcnt k). by rewrite (proj2 (String.eqb_neq job_id k)). }
  split.
  - intros Hnone. apply remove_job_None in Hnone. by rewrite Hnone.
  - intros j Hj. destruct (remove_job job_id (sched w)) as [js|] eqn:Hrm; [done|].
    apply remove_job_None in Hrm. congruence.
Qed.

Lemma late_cancel_tolerated_witness :
  exists q',
    Pure.substitute 0 1 [Ann; Bo; Cy] = inr q' /\
    substituted 0 1 [Ann; Bo; Cy] q' /\
    q' <> [Ann; Bo; Cy] /\
    returned (swap_users call_Bo "dishes" 1 w_timed_out) = true /\
    stored_queue 1 "dishes" (world_of (swap_users call_Bo "dishes" 1 w_timed_out))
    = Some q'.
Proof.
  destruct (late_cancel_tolerated w_timed_out call_Bo "dishes" 1 [Ann; Bo; Cy]
              1%Z "Ann" 0 1) as (q' & H1 & H2 & H3 & H4 & H5 & _).
  - vm_compute. reflexivity.
  - reflexivity.
  - reflexivity.
  - lia.
  - intros k. vm_compute. lia.
  - exists q'. do 2 (split; [assumption|]). split; [|split; assumption].
    apply H3. simpl. lia.
Defined.

(** ** After the fallback *)




Example late_substitution_scenario :
  sched w_timed_out = [] /\
  stored_queue 1 "dishes" w_timed_out = Some [Ann; Bo; Cy] /\
  names <$> stored_queue 1 "dishes"
              (world_of (swap_users call_Bo "dishes" 1 w_timed_out))
  = Some ["Bo"; "Ann"; "Cy"] /\
  log (world_of (swap_users call_Bo "dishes" 1 w_timed_out))
  = ["Swapped two users successfully"; time_limit_line].
Proof. vm_compute. done. Qed.

(** ** The fallback *)

(** The text of the skip notice tells the user name apart. *)
Lemma string_app_inv_head (s a b : string) : s +:+ a = s +:+ b -> a = b.
Proof.
  induction s as [|c s IH]; intros H; [exact H|].
  change (String c (s +:+ a) = String c (s +:+ b)) in H.
  injection H as H. by apply IH.
Qed.

Lemma string_length_app (a b : string) :
  String.length (a +:+ b) = String.length a + String.length b.
Proof.
  induction a as [|c a IH]; [done|].
  change (S (String.length (a +:+ b)) = S (String.length a + String.length b)).
  by rewrite IH.
Qed.

Lemma string_app_inv_tail (t a b : string) : a +:+ t = b +:+ t -> a = b.
Proof.
  revert b. induction a as [|c a IH]; intros [|c' b] H.
  - done.
  - apply (f_equal String.length) in H.
    change (String.length t = S (String.length (b +:+ t))) in H.
    rewrite string_length_app in H. lia.
  - apply (f_equal String.length) in H.
    change (S (String.length (a +:+ t)) = String.length t) in H.
    rewrite string_length_app in H. lia.
  - change (String c (a +:+ t) = String c' (b +:+ t)) in H.
    injection H as -> H. f_equal. by apply IH.
Qed.

Lemma skip_text_inj queue_name user_name user_name' :
  skip_text queue_name user_name = skip_text queue_name user_name' ->
  user_name = user_name'.
Proof.
  unfold skip_text. intros H.
  do 5 apply string_app_inv_head in H.
  by apply string_app_inv_tail in H.
Qed.

(** C4 (as amended): when the fallback armed by an escalation runs at or
    after its deadline, no queue is written, so every stored queue, its
    order and its holder are as before; users, group chats, states and log
    are untouched as well; the job leaves the store and no other job does;
    the only thing sent is the skip notice, a sticker and one message to the
    group chat, built from the queue name and the full name of the member
    who sent the reason; and running the job again does nothing, so the
    notice goes out once.  The name in the notice is the holder's exactly
    when the holder is stored under the sender's full name. *)
Theorem timeout_frame (now now' : Z) (message : Message) (w : world)
  (team_id group_chat_id : Z) (queue_name : string) :
  users w !! m_from_id message = Some team_id ->
  team_chats w !! m_from_id message = Some group_chat_id ->
  group_chat_id <> 0%Z ->
  d_queue_name (data (get_ctx (m_chat message, m_from_id message) w))
  = Some queue_name ->
  unique_ids (sched w) ->
  (get_later_time now <= now')%Z ->
  let job_id := resolving_id queue_name (Some group_chat_id) in
  let w1 := world_of (inform_and_resolve now message w) in
  let o := run_job now' job_id w1 in
  let w' := world_of o in
  returned o = true /\
  (queues w' = queues w /\ users w' = users w1 /\ team_chats w' = team_chats w1 /\
   fsm w' = fsm w1 /\ log w' = log w1) /\
  (forall t qn,
     stored_queue t qn w' = stored_queue t qn w /\
     (stored_queue t qn w' ≫= Pure.get_current_turn)
     = (stored_queue t qn w ≫= Pure.get_current_turn)) /\
  outbox w'
  = (outbox w1 ++
       [send_sticker group_chat_id WHATEVER_STICKER;
        send_message group_chat_id
          (skip_text queue_name (m_full_name message)) None])%list /\
  (forall t,
     skip_notice_names_holder t queue_name w' <->
     exists hid ct_pos,
       (stored_queue t queue_name w ≫= Pure.get_current_turn)
       = Some (hid, m_full_name message, ct_pos)) /\
  jobs_with_id job_id (sched w') = 0 /\
  (forall k, k <> job_id -> jobs_with_id k (sched w') = jobs_with_id k (sched w)) /\
  (forall now'', run_job now'' job_id w' = Ret tt w').
Proof.
  intros Huser Hchat Hnz Hname Huniq Hdue job_id w1 o w'.
  assert (w1 = after_escalation now message team_id group_chat_id queue_name w)
    as Hw1.
  { subst w1. by rewrite (inform_and_resolve_escalates now message w team_id
                            Huser group_chat_id queue_name Hchat Hnz Hname). }
  set (j := fallback_job now message group_chat_id queue_name).
  assert (lookup_job job_id (sched w1) = Some j) as Hj.
  { rewrite Hw1. simpl. change job_id with (id j). apply lookup_job_add_job_same. }
  assert (unique_ids (sched w1)) as Huniq1.
  { rewrite Hw1. simpl. by apply unique_ids_add_job. }
  assert (o = Ret tt (after_timeout j w1)) as Ho.
  { subst o. by apply run_job_due. }
  assert (queues w1 = queues w) as Hqs by (by rewrite Hw1).
  assert (forall t qn, stored_queue t qn w' = stored_queue t qn w) as Hst.
  { intros t qn. subst w'. rewrite Ho. unfold stored_queue. simpl. by rewrite Hqs. }
  assert (outbox w'
          = (outbox w1 ++
               [send_sticker group_chat_id WHATEVER_STICKER;
                send_message group_chat_id
                  (skip_text queue_name (m_full_name message)) None])%list)
    as Hout.
  { subst w'. by rewrite Ho. }
  assert (last (outbox w')
          = Some (send_message group_chat_id
                    (skip_text queue_name (m_full_name message)) None)) as Hlast.
  { rewrite Hout.
    change [send_sticker group_chat_id WHATEVER_STICKER;
            send_message group_chat_id
              (skip_text queue_name (m_full_name message)) None]
      with ([send_sticker group_chat_id WHATEVER_STICKER]
              ++ [send_message group_chat_id
                    (skip_text queue_name (m_full_name message)) None])%list.
    rewrite app_assoc. apply last_snoc. }
  assert (remove_job job_id (sched w1) <> None) as Hrm.
  { intros Hnone. apply remove_job_None in Hnone. congruence. }
  assert (sched w' = default (sched w1) (remove_job job_id (sched w1))) as Hsched.
  { subst w'. rewrite Ho. reflexivity. }
  assert (jobs_with_id job_id (sched w') = 0) as Hzero.
  { rewrite Hsched. by apply removed_job_gone. }
  split; [by rewrite Ho|]. split.
  { subst w'. rewrite Ho. simpl. by rewrite Hqs. }
  split.
  { intros t qn. split; [done|]. by rewrite Hst. }
  split; [done|]. split.
  { intros t. unfold skip_notice_names_holder. rewrite Hst, Hlast. split.
    - intros (hid & ct_name & ct_pos & c & Hget & Hmsg).
      assert (skip_text queue_name (m_full_name message)
              = skip_text queue_name ct_name) as Htext by congruence.
      apply skip_text_inj in Htext. subst ct_name.
      by exists hid, ct_pos.
    - intros (hid & ct_pos & Hget).
      by exists hid, (m_full_name message), ct_pos, group_chat_id. }
  split; [done|]. split.
  { intros k Hk. rewrite Hsched.
    destruct (remove_job job_id (sched w1)) as [js|] eqn:Hrm'; [|done].
    destruct (remove_job_Some _ _ _ Hrm') as [_ Hcnt]. simpl.
    assert (jobs_with_id k (sched w1) = jobs_with_id k (sched w)) as Hadd.
    { rewrite Hw1. simpl. by apply jobs_with_id_add_job_other. }
    rewrite <- Hadd, (Hcnt k).
    by rewrite (proj2 (String.eqb_neq job_id k)). }
  intros now''. apply run_job_absent. by apply lookup_job_None.
Qed.

Lemma timeout_frame_witness :
  skip_notice_names_holder 1 "dishes" w_timed_out /\
  stored_queue 1 "dishes" w_timed_out = stored_queue 1 "dishes" w_asked /\
  jobs_with_id "resolving_dishes_-500" (sched w_timed_out) = 0.
Proof.
  destruct (timeout_frame 1000 8200 (reason_Ann "sick") w_asked 1 (-500) "dishes")
    as (_ & _ & Hst & _ & Hholder & Hgone & _).
  - vm_compute. reflexivity.
  - vm_compute. reflexivity.
  - lia.
  - vm_compute. reflexivity.
  - intros k. vm_compute. lia.
  - vm_compute. discriminate.
  - split; [|split].
    + apply Hholder. exists 1%Z, 0. vm_compute. reflexivity.
    + apply Hst.
    + exact Hgone.
Defined.

(** C4, the claim as stated, fails: the notice names whoever sent the
    reason.  Bo, who does not hold the turn, asks for a substitute; when the
    fallback runs the notice says it is still Bo's turn, while the stored
    holder is Ann. *)
Lemma skip_notice_counterexample :
  ~ skip_notice_names_holder 1 "dishes" w_timed_out_by_Bo.
Proof.
  intros (hid & ct_name & ct_pos & c & Hget & Hlast).
  vm_compute in Hget. injection Hget as <- <- <-.
  vm_compute in Hlast. discriminate Hlast.
Qed.

Example skip_notice_scenario :
  (stored_queue 1 "dishes" w_timed_out_by_Bo ≫= Pure.get_current_turn)
  = Some (1%Z, "Ann", 0) /\
  last (outbox w_timed_out_by_Bo)
  = Some (send_message (-500) (skip_text "dishes" "Bo") None).
Proof. vm_compute. done. Qed.

(** The fallback never writes a queue, due or not, known id or not. *)
Lemma run_job_queues now job_id (w : world) :
  queues (world_of (run_job now job_id w)) = queues w.
Proof. apply run_job_frame. Qed.

(** Scenario B: the queue is unchanged, Ann still holds the turn, and the
    notice that names "dishes" and Ann went to the group once. *)
Example scenario_B :
  stored_queue 1 "dishes" w_timed_out = Some [Ann; Bo; Cy] /\
  (stored_queue 1 "dishes" w_timed_out ≫= Pure.get_current_turn)
  = Some (1%Z, "Ann", 0) /\
  outbox w_timed_out
  = (outbox w_escalated ++
       [send_sticker (-500) WHATEVER_STICKER;
        send_message (-500) (skip_text "dishes" "Ann") None])%list /\
  run_job 9000 "resolving_dishes_-500" w_timed_out = Ret tt w_timed_out.
Proof. vm_compute. done. Qed.

(** ** Escalation *)



(** Escalating again for the same queue while the first job is still in the
    store leaves one job, with the later run date. *)
Example escalation_twice :
  let w1 := world_of (ask_for_reason call_Ann "dishes" w_escalated) in
  let w2 := world_of (inform_and_resolve 5000 (reason_Ann "still sick") w1) in
  sched w2 = [Job "resolving_dishes_-500" 12200 ((-500)%Z, "Ann", "dishes")].
Proof. vm_compute. done. Qed.

(** ** No group chat *)

(** C7 (as amended): without a group chat [inform_and_resolve] only answers
    the initiator with the request to add the bot to a group and to send the
    reason again.  Nothing is sent to a group, the job store, the queues and
    the chat's state (still waiting for the reason of the same queue) are
    as before, and the outcome is the same whatever the reason was: the
    reason is not kept. *)
Theorem no_channel_no_escalation (now : Z) (message : Message) (w : world)
  (team_id : Z) :
  users w !! m_from_id message = Some team_id ->
  truthy (team_chats w !! m_from_id message) = false ->
  let o := inform_and_resolve now message w in
  o = Ret tt (sent [send_message (m_chat message) no_group_text
                      (Some add_to_group_keyboard)] w) /\
  sched (world_of o) = sched w /\
  fsm (world_of o) = fsm w /\
  queues (world_of o) = queues w /\
  (forall reason, inform_and_resolve now (with_text reason message) w = o).
Proof.
  intros Huser Hno o. subst o.
  rewrite (inform_and_resolve_no_channel now message w team_id Huser Hno).
  repeat split.
  intros reason.
  by rewrite (inform_and_resolve_no_channel now (with_text reason message) w
                team_id Huser Hno).
Qed.

Lemma no_channel_no_escalation_witness :
  inform_and_resolve 1000 (reason_Ann "sick") w_asked_no_chat
  = Ret tt (sent [send_message 1 no_group_text (Some add_to_group_keyboard)]
              w_asked_no_chat).
Proof.
  apply (no_channel_no_escalation 1000 (reason_Ann "sick") w_asked_no_chat 1).
  - vm_compute. reflexivity.
  - vm_compute. reflexivity.
Defined.

(** C7, the claim as stated, fails: in the world where Ann was asked for a
    reason and the team has no group chat, what the handler leaves behind
    does not tell which reason was sent. *)
Lemma reason_not_retained_counterexample :
  ~ retains_reason 1000 (reason_Ann "sick") w_asked_no_chat.
Proof.
  intros [recover H].
  pose proof (H "sick") as H1. pose proof (H "busy") as H2.
  assert (world_of (inform_and_resolve 1000
                      (with_text "sick" (reason_Ann "sick")) w_asked_no_chat)
          = world_of (inform_and_resolve 1000
                        (with_text "busy" (reason_Ann "sick")) w_asked_no_chat))
    as Heq by (vm_compute; reflexivity).
  rewrite Heq in H1. rewrite H1 in H2. discriminate H2.
Qed.

(** The chat is still waiting for the reason of the same queue, so the
    reason sent again after the bot joined group chat -500 escalates. *)
Example reason_sent_again :
  let w1 := world_of (inform_and_resolve 1000 (reason_Ann "sick") w_asked_no_chat) in
  let w2 := World (users w1) (team_chats w0) (queues w1) (sched w1) (fsm w1)
                  (outbox w1) (log w1) in
  fsm w1 !! (1, 1)%Z
  = Some (Ctx (Some waiting_for_reason) (StateData (Some "dishes") None None)) /\
  sched w1 = [] /\
  sched (world_of (inform_and_resolve 2000 (reason_Ann "sick") w2))
  = [Job "resolving_dishes_-500" 9200 ((-500)%Z, "Ann", "dishes")].
Proof. vm_compute. done. Qed.

(** * Further properties of the handlers *)

(** ** Reading callback data *)

Section Strings.

Implicit Types (s r : string) (c : ascii) (x : N).

Lemma string_app_cons c s1 s2 : String c s1 +:+ s2 = String c (s1 +:+ s2).
Proof. reflexivity. Qed.

Lemma string_app_nil_l s : EmptyString +:+ s = s.
Proof. reflexivity. Qed.

Lemma string_app_assoc s1 s2 s3 : (s1 +:+ s2) +:+ s3 = s1 +:+ (s2 +:+ s3).
Proof.
  induction s1 as [|c s1 IH]; [done|].
  rewrite !string_app_cons. f_equal. exact IH.
Qed.

Lemma string_app_nil_r s : s +:+ EmptyString = s.
Proof.
  induction s as [|c s IH]; [done|]. rewrite string_app_cons. f_equal. exact IH.
Qed.

Lemma split_nonempty sep s : split sep s <> [].
Proof.
  destruct s as [|c s]; simpl; [done|].
  destruct (Ascii.eqb c sep); [done|]. by destruct (split sep s).
Qed.

(** Cutting a text that was glued with the separator gives the pieces of
    both parts. *)
Lemma split_app sep s1 s2 :
  split sep (s1 +:+ String sep s2) = (split sep s1 ++ split sep s2)%list.
Proof.
  induction s1 as [|c s1 IH].
  - rewrite string_app_nil_l. simpl. by rewrite Ascii.eqb_refl.
  - rewrite string_app_cons. simpl.
    destruct (Ascii.eqb c sep); [by rewrite IH|].
    rewrite IH. pose proof (split_nonempty sep s1).
    by destruct (split sep s1).
Qed.

Lemma split_no_underscore s : no_underscore s = true -> split "_" s = [s].
Proof.
  induction s as [|c s IH]; simpl; [done|].
  intros [Hc Hs]%andb_prop. apply negb_true_iff in Hc. rewrite Hc.
  by rewrite IH.
Qed.

Lemma last_piece_app s1 s2 : last_piece (s1 +:+ String "_" s2) = last_piece s2.
Proof.
  unfold last_piece. rewrite split_app, last_app.
  pose proof (split_nonempty "_" s2) as Hne.
  apply last_is_Some in Hne as [p Hp]. by rewrite Hp.
Qed.

Lemma last_piece_no_underscore s : no_underscore s = true -> last_piece s = s.
Proof. intros H. unfold last_piece. by rewrite split_no_underscore. Qed.

Lemma no_underscore_app s1 s2 :
  no_underscore (s1 +:+ s2) = no_underscore s1 && no_underscore s2.
Proof.
  induction s1 as [|c s1 IH]; [done|].
  rewrite string_app_cons. simpl. by rewrite IH, andb_assoc.
Qed.

Lemma digit_of_pretty_N_char x :
  (x < 10)%N -> digit_of (pretty_N_char x) = Some x.
Proof.
  intros Hx.
  assert (x = 0 \/ x = 1 \/ x = 2 \/ x = 3 \/ x = 4 \/ x = 5 \/ x = 6
          \/ x = 7 \/ x = 8 \/ x = 9)%N as Hc by lia.
  repeat (destruct Hc as [->|Hc]; [reflexivity|]). by subst.
Qed.

Lemma pretty_N_char_plain x :
  (x < 10)%N ->
  int_space (pretty_N_char x) = false /\
  Ascii.eqb (pretty_N_char x) "_" = false /\
  forall r, int (String (pretty_N_char x) r)
            = Z.of_N <$> int_digits 0 true (String (pretty_N_char x) r).
Proof.
  intros Hx.
  assert (x = 0 \/ x = 1 \/ x = 2 \/ x = 3 \/ x = 4 \/ x = 5 \/ x = 6
          \/ x = 7 \/ x = 8 \/ x = 9)%N as Hc by lia.
  repeat (destruct Hc as [->|Hc]; [done|]). by subst.
Qed.

(** The printed digits start with a digit. *)
Lemma pretty_N_go_head x s :
  (0 < x)%N ->
  exists d r, (d < 10)%N /\ pretty_N_go x s = String (pretty_N_char d) r.
Proof.
  revert s. induction (N.lt_wf_0 x) as [x _ IH]; intros s Hx.
  rewrite pretty_N_go_step by done.
  destruct (decide (x `div` 10 = 0)%N) as [Hz|Hnz].
  - rewrite Hz, pretty_N_go_0. eexists _, _. split; [|done].
    by apply N.mod_lt.
  - apply IH; [by apply N.div_lt | by apply N.neq_0_lt_0].
Qed.

(** Reading the printed digits gives the number back. *)
Lemma int_digits_pretty_N_go x s :
  (0 < x)%N ->
  int_digits 0 true (pretty_N_go x s) = int_digits x false s.
Proof.
  revert s. induction (N.lt_wf_0 x) as [x _ IH]; intros s Hx.
  rewrite pretty_N_go_step by done.
  assert (x `mod` 10 < 10)%N as Hd by (by apply N.mod_lt).
  destruct (decide (x `div` 10 = 0)%N) as [Hz|Hnz].
  - rewrite Hz, pretty_N_go_0. simpl. rewrite digit_of_pretty_N_char by done.
    f_equal. pose proof (N.div_mod x 10). lia.
  - rewrite IH; [|by apply N.div_lt | by apply N.neq_0_lt_0]. simpl.
    rewrite digit_of_pretty_N_char by done.
    f_equal. pose proof (N.div_mod x 10). lia.
Qed.

Lemma no_underscore_pretty_N_go x s :
  no_underscore s = true -> no_underscore (pretty_N_go x s) = true.
Proof.
  revert s. induction (N.lt_wf_0 x) as [x _ IH]; intros s Hs.
  destruct (decide (0 < x)%N) as [Hx|Hx].
  - rewrite pretty_N_go_step by done. apply IH; [by apply N.div_lt|].
    simpl. rewrite Hs.
    destruct (pretty_N_char_plain (x `mod` 10)) as (_ & -> & _); [|done].
    by apply N.mod_lt.
  - replace x with 0%N by lia. by rewrite pretty_N_go_0.
Qed.

Lemma int_pretty_N x : int (pretty x) = Some (Z.of_N x).
Proof.
  unfold pretty, pretty_N. destruct (decide (x = 0%N)) as [->|Hx]; [done|].
  destruct (pretty_N_go_head x EmptyString) as (d & r & Hd & Heq); [lia|].
  destruct (pretty_N_char_plain d Hd) as (_ & _ & Hint).
  rewrite Heq, Hint, <- Heq, int_digits_pretty_N_go by lia. done.
Qed.

(** [int(str(z)) = z]. *)
Lemma int_pretty_Z (z : Z) : int (pretty z) = Some z.
Proof.
  destruct z as [|p|p].
  - done.
  - apply (int_pretty_N (N.pos p)).
  - change (pretty (Z.neg p)) with (String "-"%char (pretty (N.pos p))).
    unfold int. simpl. unfold pretty, pretty_N.
    destruct (decide (N.pos p = 0%N)); [done|].
    rewrite int_digits_pretty_N_go by lia. done.
Qed.

Lemma no_underscore_pretty_N x : no_underscore (pretty x) = true.
Proof.
  unfold pretty, pretty_N. destruct (decide (x = 0%N)); [done|].
  by apply no_underscore_pretty_N_go.
Qed.

Lemma no_underscore_pretty_Z (z : Z) : no_underscore (pretty z) = true.
Proof.
  destruct z as [|p|p]; [done|apply (no_underscore_pretty_N (N.pos p))|].
  change (pretty (Z.neg p)) with (String "-"%char (pretty (N.pos p))).
  simpl. apply (no_underscore_pretty_N (N.pos p)).
Qed.

Lemma pretty_nat_Z (i : nat) : pretty i = pretty (Z.of_nat i).
Proof. unfold pretty at 1, pretty_nat. by destruct i. Qed.

End Strings.

Section CallbackData.

Implicit Types (s queue_name : string) (team_id : Z) (i : nat).

Lemma split_pieces_no_underscore s p :
  p ∈ split "_" s -> no_underscore p = true.
Proof.
  revert p. induction s as [|c s IH]; intros p Hp; simpl in Hp.
  - apply list_elem_of_singleton in Hp. by subst.
  - destruct (Ascii.eqb c "_") eqn:Hc.
    + apply elem_of_cons in Hp as [->|Hp]; [done | by apply IH].
    + pose proof (split_nonempty "_" s) as Hne.
      destruct (split "_" s) as [|p0 ps]; [done|].
      apply elem_of_cons in Hp as [->|Hp].
      * simpl. rewrite Hc. simpl. apply IH. by left.
      * apply IH. by right.
Qed.

Lemma first_piece_no_underscore s :
  no_underscore (first_piece s) = true.
Proof.
  unfold first_piece. pose proof (split_nonempty "_" s) as Hne.
  destruct (split "_" s) as [|p ps] eqn:E; [done|]. simpl.
  apply (split_pieces_no_underscore s). rewrite E. by left.
Qed.

Lemma last_piece_has_no_underscore s : no_underscore (last_piece s) = true.
Proof.
  unfold last_piece. pose proof (split_nonempty "_" s) as Hne.
  apply last_is_Some in Hne as [p Hp]. rewrite Hp. simpl.
  apply (split_pieces_no_underscore s). by eapply last_Some_elem_of.
Qed.

(** X11: the data of the substitute button, read back by [swap_users], gives
    the team id and the first underscore-free piece of the queue name: the
    queue name itself exactly when it holds no underscore. *)
Theorem swap_data_of_button queue_name team_id :
  swap_data (swap_button_data queue_name team_id)
  = inr (first_piece queue_name, team_id) /\
  (first_piece queue_name = queue_name <-> no_underscore queue_name = true).
Proof.
  split.
  - unfold swap_data, swap_button_data.
    change ("swap_" +:+ queue_name +:+ "_" +:+ pretty team_id)
      with ("swap" +:+ String "_" (queue_name +:+ String "_" (pretty team_id))).
    rewrite !last_piece_app, last_piece_no_underscore, int_pretty_Z
      by apply no_underscore_pretty_Z.
    rewrite !split_app. unfold first_piece.
    pose proof (split_nonempty "_" queue_name) as Hne.
    by destruct (split "_" queue_name).
  - split.
    + intros <-. apply first_piece_no_underscore.
    + intros H. unfold first_piece. by rewrite split_no_underscore.
Qed.

(** The queue name that [ask_for_reason] reads from ["ask_why_<name>"]
    is the last underscore-free piece of the name: the name itself exactly
    when it holds no underscore. *)
Theorem ask_why_data_of_name queue_name :
  ask_why_data ("ask_why_" +:+ queue_name) = last_piece queue_name /\
  (last_piece queue_name = queue_name <-> no_underscore queue_name = true).
Proof.
  split.
  - unfold ask_why_data.
    change ("ask_why_" +:+ queue_name)
      with ("ask" +:+ String "_" ("why" +:+ String "_" queue_name)).
    by rewrite !last_piece_app.
  - split.
    + intros <-. apply last_piece_has_no_underscore.
    + apply last_piece_no_underscore.
Qed.

Lemma position_data_from i :
  position_data ("from_" +:+ pretty i) = Some (Z.of_nat i).
Proof.
  unfold position_data.
  change ("from_" +:+ pretty i) with ("from" +:+ String "_" (pretty i)).
  rewrite last_piece_app, pretty_nat_Z.
  rewrite last_piece_no_underscore by apply no_underscore_pretty_Z.
  apply int_pretty_Z.
Qed.

Lemma position_data_to i :
  position_data ("to_" +:+ pretty i) = Some (Z.of_nat i).
Proof.
  unfold position_data.
  change ("to_" +:+ pretty i) with ("to" +:+ String "_" (pretty i)).
  rewrite last_piece_app, pretty_nat_Z.
  rewrite last_piece_no_underscore by apply no_underscore_pretty_Z.
  apply int_pretty_Z.
Qed.

(** X14: every button of the two reorder questions carries its own position:
    read back with [int(call.data.split("_")[-1])], the data of the button
    in row [i] is [i], a position inside the queue. *)
Theorem position_of_button (queue_array : list member) i b :
  pick_buttons queue_array !! i = Some b \/
  position_buttons queue_array !! i = Some b ->
  position_data (callback_data b) = Some (Z.of_nat i) /\ i < length queue_array.
Proof.
  unfold pick_buttons, position_buttons.
  intros [H|H]; rewrite list_lookup_imap in H;
    destruct (queue_array !! i) as [m|] eqn:Hm; simplify_eq/=;
    (split; [|by eapply lookup_lt_Some]).
  - apply position_data_from.
  - apply position_data_to.
Qed.

Lemma position_of_button_witness :
  position_data "from_1" = Some 1%Z /\ 1 < length [Ann; Bo; Cy].
Proof.
  apply (position_of_button [Ann; Bo; Cy] 1 (Button "Bo" "from_1")).
  left. reflexivity.
Defined.

End CallbackData.

(** ** The two questions of the reorder dialogue *)

Section Questions.

Implicit Types (q queue_array : list member) (k : nat).

Lemma pick_loop_spec k q queue_list buttons :
  pick_loop k q queue_list buttons
  = (queue_list +:+ get_queue_list_from k q,
     (buttons ++ imap (fun i m => Button (name m) ("from_" +:+ pretty (k + i - 1))) q)%list).
Proof.
  revert k queue_list buttons.
  induction q as [|m q IH]; intros k queue_list buttons; simpl.
  - by rewrite string_app_nil_r, app_nil_r.
  - rewrite IH. f_equal.
    + by rewrite !string_app_assoc.
    + rewrite <- app_assoc. simpl.
      replace (k + 0 - 1) with (k - 1) by lia. do 2 f_equal.
      apply imap_ext. intros i x _. simpl.
      by replace (k + i - 0) with (k + S i - 1) by lia.
Qed.

Lemma position_loop_spec k q buttons :
  position_loop k q buttons
  = (buttons ++ imap (fun i _ => Button (pretty (k + i))
                                   ("to_" +:+ pretty (k + i - 1))) q)%list.
Proof.
  revert k buttons. induction q as [|m q IH]; intros k buttons; simpl.
  - by rewrite app_nil_r.
  - rewrite IH, <- app_assoc. simpl.
    replace (k + 0 - 1) with (k - 1) by lia.
    replace (k + 0) with k by lia. do 2 f_equal.
    apply imap_ext. intros i x _. simpl.
    replace (k + i - 0) with (k + S i - 1) by lia.
    by replace (S (k + i)) with (k + S i) by lia.
Qed.

Lemma get_ctx_insert (key : Z * Z) (x : FSMContext) (us cs : gmap Z Z)
  (qs : gmap Z (gmap string (list member))) (js : list job)
  (f : gmap (Z * Z) FSMContext) (ob : list event) (lg : list string) :
  get_ctx key (World us cs qs js (<[key := x]> f) ob lg) = x.
Proof. unfold get_ctx. simpl. by rewrite lookup_insert_eq. Qed.

Lemma ask_to_pick_asks call (w : world) queue_array :
  d_queue_array (data (get_ctx (c_chat call, c_from_id call) w))
  = Some queue_array ->
  ask_to_pick call w = Ret tt (after_pick call queue_array w).
Proof.
  intros Harr. unfold ask_to_pick, mbind, logging_info, state_get_data.
  simpl. unfold get_ctx in *. simpl. rewrite Harr. simpl.
  rewrite pick_loop_spec. simpl. unfold mbind, emit, after_pick. simpl.
  rewrite <- !app_assoc. simpl. unfold pick_buttons.
  rewrite (imap_ext (fun i m => Button (name m) ("from_" +:+ pretty (1 + i - 1)))
             (fun i m => Button (name m) ("from_" +:+ pretty i))); [done|].
  intros i x _. simpl. by replace (i - 0) with i by lia.
Qed.

Lemma ask_to_position_asks call (w : world) from_position queue_array :
  d_queue_array (data (get_ctx (c_chat call, c_from_id call) w))
  = Some queue_array ->
  ask_to_position call from_position w
  = Ret tt (after_position call from_position queue_array w).
Proof.
  intros Harr. unfold ask_to_position, mbind, state_update_data, state_get_data.
  simpl. rewrite get_ctx_insert. simpl.
  rewrite Harr. simpl. rewrite position_loop_spec. simpl.
  unfold mbind, emit, after_position. simpl.
  rewrite <- !app_assoc. simpl. unfold position_buttons.
  rewrite (imap_ext
             (fun i (_ : member) => Button (pretty (1 + i)) ("to_" +:+ pretty (1 + i - 1)))
             (fun i _ => Button (pretty (S i)) ("to_" +:+ pretty i))).
  { by rewrite Harr. }
  intros i x _. simpl. by replace (i - 0) with i by lia.
Qed.

End Questions.

(** ** Escalation: errors, frame, deadline *)

Section EscalationMore.

Context (now : Z) (message : Message) (w : world).

(** The four ways [inform_and_resolve] can go. *)
Lemma inform_and_resolve_cases :
  let uid := m_from_id message in
  inform_and_resolve now message w
  = match users w !! uid with
    | None => Raise TypeError w
    | Some team_id =>
        if truthy (team_chats w !! uid) then
          match d_queue_name (data (get_ctx (m_chat message, uid) w)) with
          | None => Raise KeyError w
          | Some queue_name =>
              Ret tt (after_escalation now message team_id
                        (default 0%Z (team_chats w !! uid)) queue_name w)
          end
        else
          Ret tt (sent [send_message (m_chat message) no_group_text
                          (Some add_to_group_keyboard)] w)
    end.
Proof.
  intros uid. subst uid.
  destruct (users w !! m_from_id message) as [team_id|] eqn:Huser.
  - destruct (truthy (team_chats w !! m_from_id message)) eqn:Htruthy.
    + destruct (d_queue_name _) as [qn|] eqn:Hname.
      * destruct (team_chats w !! m_from_id message) as [c|] eqn:Hchat; [|done].
        simpl in Htruthy. apply negb_true_iff, Z.eqb_neq in Htruthy.
        by rewrite (inform_and_resolve_escalates now message w team_id Huser
                      c qn Hchat Htruthy Hname).
      * unfold inform_and_resolve, mbind, get_team_chat, get_team_id,
          state_get_data. rewrite Huser. simpl. rewrite Htruthy. simpl.
        by rewrite Hname.
    + by rewrite (inform_and_resolve_no_channel now message w team_id Huser Htruthy).
  - unfold inform_and_resolve, mbind, get_team_chat, get_team_id.
    by rewrite Huser.
Qed.

Lemma length_add_job_bounds j (js : list job) :
  length js <= length (add_job j js) <= S (length js).
Proof.
  induction js as [|j' js IH]; simpl; [lia|].
  destruct (String.eqb _ _); simpl; lia.
Qed.

(** X1: [inform_and_resolve] raises in two cases only, a sender who is not in
    the users collection ([TypeError], even when the team chat is missing
    too) and, for a known sender with a group chat, chat data without a
    queue name ([KeyError]); in both nothing has been sent, armed or stored.
    In every other case it returns. *)
Theorem inform_and_resolve_raises :
  let o := inform_and_resolve now message w in
  let uid := m_from_id message in
  match users w !! uid with
  | None => o = Raise TypeError w
  | Some _ =>
      if truthy (team_chats w !! uid) then
        match d_queue_name (data (get_ctx (m_chat message, uid) w)) with
        | None => o = Raise KeyError w
        | Some _ => returned o = true
        end
      else returned o = true
  end.
Proof.
  intros o uid. subst o uid. rewrite inform_and_resolve_cases. simpl.
  destruct (users w !! m_from_id message); [|done].
  destruct (truthy _); [|done]. by destruct (d_queue_name _).
Qed.

(** X2: whatever the message, the state and the time, and whether it returns
    or raises, [inform_and_resolve] writes no queue, no user and no log
    line, touches no chat state but the sender's, and puts at most one job
    into the store. *)
Theorem inform_and_resolve_frame :
  let w' := world_of (inform_and_resolve now message w) in
  queues w' = queues w /\ users w' = users w /\ team_chats w' = team_chats w /\
  log w' = log w /\
  (forall key, key <> (m_chat message, m_from_id message) ->
     fsm w' !! key = fsm w !! key) /\
  length (sched w) <= length (sched w') <= S (length (sched w)).
Proof.
  intros w'. subst w'. rewrite inform_and_resolve_cases. simpl.
  destruct (users w !! m_from_id message); [|simpl; repeat split; try done; lia].
  destruct (truthy _); [|simpl; repeat split; try done; lia].
  destruct (d_queue_name _); [|simpl; repeat split; try done; lia].
  simpl. split; [done|]. split; [done|]. split; [done|]. split; [done|]. split.
  - intros key Hkey. by rewrite lookup_delete_ne.
  - apply length_add_job_bounds.
Qed.

End EscalationMore.

(** X3: after an escalation at time [now] the fallback does nothing when it
    is tried before [now] plus two hours; from then on it sends the skip
    notice, naming the queue and the sender of the reason, to the group
    chat, and the job is gone. *)
Theorem fallback_deadline (now : Z) (message : Message) (w : world)
  (team_id group_chat_id : Z) (queue_name : string) :
  users w !! m_from_id message = Some team_id ->
  team_chats w !! m_from_id message = Some group_chat_id ->
  group_chat_id <> 0%Z ->
  d_queue_name (data (get_ctx (m_chat message, m_from_id message) w))
  = Some queue_name ->
  unique_ids (sched w) ->
  let w1 := world_of (inform_and_resolve now message w) in
  let job_id := resolving_id queue_name (Some group_chat_id) in
  (forall t, (t < now + 7200)%Z -> run_job t job_id w1 = Ret tt w1) /\
  (forall t, (now + 7200 <= t)%Z ->
     let w2 := world_of (run_job t job_id w1) in
     outbox w2
     = (outbox w1 ++
          [send_sticker group_chat_id WHATEVER_STICKER;
           send_message group_chat_id
             (skip_text queue_name (m_full_name message)) None])%list /\
     lookup_job job_id (sched w2) = None /\
     queues w2 = queues w).
Proof.
  intros Huser Hchat Hnz Hname Huniq w1 job_id.
  assert (w1 = after_escalation now message team_id group_chat_id queue_name w)
    as Hw1.
  { subst w1. by rewrite (inform_and_resolve_escalates now message w team_id
                            Huser group_chat_id queue_name Hchat Hnz Hname). }
  set (j := fallback_job now message group_chat_id queue_name).
  assert (lookup_job job_id (sched w1) = Some j) as Hj.
  { rewrite Hw1. simpl. change job_id with (id j). apply lookup_job_add_job_same. }
  assert (unique_ids (sched w1)) as Huniq1.
  { rewrite Hw1. simpl. by apply unique_ids_add_job. }
  split.
  - intros t Ht. apply (run_job_early t job_id w1 j Hj).
    simpl. unfold get_later_time, HOURS. lia.
  - intros t Ht w2. subst w2.
    rewrite (run_job_due t job_id w1 j Hj)
      by (simpl; unfold get_later_time, HOURS; lia).
    simpl. split; [done|]. split.
    + apply lookup_job_None. by apply (removed_job_gone job_id).
    + by rewrite Hw1.
Qed.

Lemma fallback_deadline_witness :
  run_job 8199 "resolving_dishes_-500" w_escalated = Ret tt w_escalated.
Proof.
  apply (fallback_deadline 1000 (reason_Ann "sick") w_asked 1 (-500) "dishes").
  - vm_compute. reflexivity.
  - vm_compute. reflexivity.
  - lia.
  - vm_compute. reflexivity.
  - intros k. vm_compute. lia.
  - lia.
Defined.

(** X4: the reason that follows [ask_for_reason] escalates for the queue
    that was asked about, whatever the chat's data held before, provided the
    sender is known and the team has a group chat; afterwards the chat has
    no state and no data left. *)
Theorem ask_then_reason (call : CallbackQuery) (queue_name : string) (now : Z)
  (message : Message) (w : world) (team_id group_chat_id : Z) :
  m_chat message = c_chat call ->
  m_from_id message = c_from_id call ->
  users w !! c_from_id call = Some team_id ->
  team_chats w !! c_from_id call = Some group_chat_id ->
  group_chat_id <> 0%Z ->
  let w1 := world_of (ask_for_reason call queue_name w) in
  let o := inform_and_resolve now message w1 in
  o = Ret tt (after_escalation now message team_id group_chat_id queue_name w1) /\
  current_state (get_ctx (c_chat call, c_from_id call) w1)
  = Some waiting_for_reason /\
  get_ctx (c_chat call, c_from_id call) (world_of o) = empty_ctx.
Proof.
  intros Hchat Hfrom Huser Hteam Hnz w1 o.
  assert (d_queue_name (data (get_ctx (m_chat message, m_from_id message) w1))
          = Some queue_name) as Hname.
  { rewrite Hchat, Hfrom. subst w1. unfold ask_for_reason, mbind, emit,
      state_set, state_update_data. simpl. by rewrite !get_ctx_insert. }
  assert (o = Ret tt (after_escalation now message team_id group_chat_id
                        queue_name w1)) as Ho.
  { subst o. apply inform_and_resolve_escalates; try done.
    - by rewrite Hfrom.
    - by rewrite Hfrom. }
  split; [done|]. split.
  - subst w1. unfold ask_for_reason, mbind, emit, state_set, state_update_data.
    simpl. by rewrite !get_ctx_insert.
  - rewrite Ho. simpl. unfold get_ctx. simpl.
    by rewrite Hchat, Hfrom, lookup_delete_eq.
Qed.

Lemma ask_then_reason_witness :
  inform_and_resolve 1000 (reason_Ann "sick") w_asked
  = Ret tt (after_escalation 1000 (reason_Ann "sick") 1 (-500) "dishes" w_asked).
Proof.
  apply (ask_then_reason call_Ann "dishes" 1000 (reason_Ann "sick") w0 1 (-500)).
  - reflexivity.
  - reflexivity.
  - vm_compute. reflexivity.
  - vm_compute. reflexivity.
  - lia.
Defined.

(** ** Substitution: errors, frame, membership *)

Section SwapMore.

Context (call : CallbackQuery) (queue_name : string) (team_id : Z) (w : world).

(** The ways [swap_users] can go. *)
Lemma swap_users_cases :
  swap_users call queue_name team_id w
  = match queues w !! team_id with
    | None => Raise TypeError w
    | Some qs =>
        match qs !! queue_name with
        | None => Raise KeyError w
        | Some q =>
            match Pure.get_current_turn q with
            | None => Raise TypeError w
            | Some (_, ct_name, ct_pos) =>
                match Pure.find_user_pos (c_from_id call) q with
                | None => Ret tt (sent (not_member_reply call) w)
                | Some user_pos =>
                    if Nat.eqb ct_pos user_pos
                    then Ret tt (sent (self_swap_reply call) w)
                    else match Pure.substitute ct_pos user_pos q with
                         | inl e => Raise e w
                         | inr q' =>
                             Ret tt (after_swap call queue_name team_id
                                       ct_name q' w)
                         end
                end
            end
        end
    end.
Proof.
  destruct (queues w !! team_id) as [qs|] eqn:Hteam.
  2: { unfold swap_users, mbind, get_team_chat, get_queue_array.
       by rewrite Hteam. }
  destruct (qs !! queue_name) as [q|] eqn:Hqueue.
  2: { unfold swap_users, mbind, get_team_chat, get_queue_array.
       by rewrite Hteam, Hqueue. }
  destruct (Pure.get_current_turn q) as [[[hid ct_name] ct_pos]|] eqn:Hget.
  2: { unfold swap_users, mbind, get_team_chat, get_queue_array.
       by rewrite Hteam, Hqueue, Hget. }
  destruct (Pure.find_user_pos (c_from_id call) q) as [user_pos|] eqn:Hpos.
  2: { by eapply swap_users_not_member. }
  destruct (Nat.eqb_spec ct_pos user_pos) as [<-|Hne].
  { by eapply swap_users_self. }
  destruct (Pure.substitute ct_pos user_pos q) as [e|q'] eqn:Hsub.
  - unfold swap_users, mbind, get_team_chat, get_queue_array.
    rewrite Hteam, Hqueue, Hget. simpl. rewrite Hpos.
    rewrite (proj2 (Nat.eqb_neq ct_pos user_pos)) by done. by rewrite Hsub.
  - eapply swap_users_valid; [done..| |done]. by intros ->.
Qed.

(** X5: [swap_users] raises [TypeError] when the team has no queues document
    and [KeyError] when the document has no queue of that name, in both
    cases before anything is sent or stored; on a stored queue that has a
    holder it always returns, whoever the responder is. *)
Theorem swap_users_raises :
  let o := swap_users call queue_name team_id w in
  match queues w !! team_id with
  | None => o = Raise TypeError w
  | Some qs =>
      match qs !! queue_name with
      | None => o = Raise KeyError w
      | Some q => is_Some (Pure.get_current_turn q) -> returned o = true
      end
  end.
Proof.
  intros o. subst o. rewrite swap_users_cases.
  destruct (queues w !! team_id) as [qs|]; [|done].
  destruct (qs !! queue_name) as [q|]; [|done].
  intros [[[hid ct_name] ct_pos] Hget]. rewrite Hget.
  destruct (Pure.find_user_pos (c_from_id call) q) as [user_pos|] eqn:Hpos;
    [|done].
  destruct (Nat.eqb ct_pos user_pos); [done|].
  apply get_current_turn_Some in Hget as (m & Hm & _).
  destruct (find_user_pos_Some _ _ _ Hpos) as (mu & Hmu & _).
  destruct (substitute_total ct_pos user_pos q m Hm) as [q' ->]; [|done].
  by eapply lookup_lt_Some.
Qed.

(** X6: whatever the responder and whether it returns or raises,
    [swap_users] writes no user, no group chat and no chat state, leaves
    every queue other than the one named in the callback as it was, and
    never adds a job to the store. *)
Theorem swap_users_frame :
  let w' := world_of (swap_users call queue_name team_id w) in
  users w' = users w /\ team_chats w' = team_chats w /\ fsm w' = fsm w /\
  (forall team_id' queue_name',
     (team_id', queue_name') <> (team_id, queue_name) ->
     stored_queue team_id' queue_name' w' = stored_queue team_id' queue_name' w) /\
  (forall k, jobs_with_id k (sched w') <= jobs_with_id k (sched w)).
Proof.
  intros w'. subst w'. rewrite swap_users_cases.
  destruct (queues w !! team_id) as [qs|] eqn:Hteam; [|done].
  destruct (qs !! queue_name) as [q|]; [|done].
  destruct (Pure.get_current_turn q) as [[[hid ct_name] ct_pos]|]; [|done].
  destruct (Pure.find_user_pos (c_from_id call) q) as [user_pos|]; [|done].
  destruct (Nat.eqb ct_pos user_pos); [done|].
  destruct (Pure.substitute ct_pos user_pos q) as [e|q']; [done|].
  simpl. split; [done|]. split; [done|]. split; [done|]. split.
  - intros team_id' queue_name' Hne. unfold stored_queue. simpl.
    destruct (decide (team_id' = team_id)) as [->|Hteam'].
    + rewrite lookup_insert_eq, Hteam. simpl.
      rewrite lookup_insert_ne; [done|]. congruence.
    + by rewrite lookup_insert_ne.
  - intros k.
    destruct (remove_job (swap_job_id call queue_name w) (sched w)) as [js|] eqn:Hrm;
      simpl; [|done].
    destruct (remove_job_Some _ _ _ Hrm) as [_ Hcnt]. rewrite (Hcnt k). lia.
Qed.

(** X7: on a stored queue that has a holder, [swap_users] keeps the members:
    the queue stored afterwards has the same ids and names, each as often as
    before, whoever the responder is. *)
Theorem swap_users_members (q : list member) :
  stored_queue team_id queue_name w = Some q ->
  is_Some (Pure.get_current_turn q) ->
  exists q',
    stored_queue team_id queue_name
      (world_of (swap_users call queue_name team_id w)) = Some q' /\
    order q' ≡ₚ order q /\
    length q' = length q.
Proof.
  intros Hq [[[hid ct_name] ct_pos] Hget].
  destruct (stored_queue_Some _ _ _ _ Hq) as (qs & Hteam & Hqueue).
  rewrite swap_users_cases, Hteam, Hqueue, Hget.
  destruct (Pure.find_user_pos (c_from_id call) q) as [user_pos|] eqn:Hpos;
    [|by exists q].
  destruct (Nat.eqb ct_pos user_pos); [by exists q|].
  pose proof (get_current_turn_Some _ _ _ _ Hget) as (m & Hm & _).
  destruct (find_user_pos_Some _ _ _ Hpos) as (mu & Hmu & _).
  destruct (substitute_total ct_pos user_pos q m Hm) as [q' Hsub].
  { by eapply lookup_lt_Some. }
  rewrite Hsub. exists q'. simpl. split; [apply stored_queue_update|].
  assert (order q !! ct_pos = Some (user_id m, name m)) as Ha.
  { unfold order. by rewrite list_lookup_fmap, Hm. }
  assert (order q !! user_pos = Some (user_id mu, name mu)) as Hb.
  { unfold order. by rewrite list_lookup_fmap, Hmu. }
  rewrite (substitute_order _ _ _ _ _ _ Ha Hb Hsub). split.
  - by apply Permutation_insert_swap.
  - rewrite <- (order_length q'), (substitute_order _ _ _ _ _ _ Ha Hb Hsub).
    by rewrite !length_insert, order_length.
Qed.

End SwapMore.

Lemma swap_users_members_witness :
  exists q',
    stored_queue 1 "dishes"
      (world_of (swap_users call_Cy "dishes" 1 w_escalated)) = Some q' /\
    order q' ≡ₚ order [Ann; Bo; Cy] /\
    length q' = 3.
Proof.
  apply (swap_users_members call_Cy "dishes" 1 w_escalated [Ann; Bo; Cy]).
  - vm_compute. reflexivity.
  - eexists. reflexivity.
Defined.

(** ** Arming and cancelling *)

Lemma remove_added_job j (js : list job) :
  jobs_with_id (id j) js = 0 -> remove_job (id j) (add_job j js) = Some js.
Proof.
  induction js as [|j' js IH]; simpl; intros H0.
  - by rewrite String.eqb_refl.
  - destruct (String.eqb (id j') (id j)) eqn:E; simpl in *; [lia|].
    rewrite E, IH by lia. done.
Qed.

(** X10: an escalation followed by an accepted substitution from a responder
    whose group chat is the one of the escalation puts the job store back
    to what it was before the escalation (no job under the id to begin
    with); the time-limit line is not logged, and the queue that is stored
    is the old one with holder and responder exchanged and the turn
    reassigned. *)
Theorem escalate_then_substitute (now : Z) (message : Message)
  (call : CallbackQuery) (w : world) (team_id initiator_team group_chat_id : Z)
  (queue_name : string) (q : list member)
  (hid : Z) (ct_name : string) (ct_pos user_pos : nat) :
  users w !! m_from_id message = Some initiator_team ->
  team_chats w !! m_from_id message = Some group_chat_id ->
  group_chat_id <> 0%Z ->
  d_queue_name (data (get_ctx (m_chat message, m_from_id message) w))
  = Some queue_name ->
  jobs_with_id (resolving_id queue_name (Some group_chat_id)) (sched w) = 0 ->
  team_chats w !! c_from_id call = Some group_chat_id ->
  stored_queue team_id queue_name w = Some q ->
  Pure.get_current_turn q = Some (hid, ct_name, ct_pos) ->
  Pure.find_user_pos (c_from_id call) q = Some user_pos ->
  user_pos <> ct_pos ->
  let w1 := world_of (inform_and_resolve now message w) in
  let w2 := world_of (swap_users call queue_name team_id w1) in
  sched w2 = sched w /\
  log w2 = (log w ++ ["Swapped two users successfully"])%list /\
  exists q', Pure.substitute ct_pos user_pos q = inr q' /\
             substituted ct_pos user_pos q q' /\
             (c_from_id call <> hid -> q' <> q) /\
             stored_queue team_id queue_name w2 = Some q'.
Proof.
  intros Huser Hchat Hnz Hname Hfresh Hrchat Hq Hget Hpos Hne w1 w2.
  assert (w1 = after_escalation now message initiator_team group_chat_id
                 queue_name w) as Hw1.
  { subst w1. by rewrite (inform_and_resolve_escalates now message w _ Huser
                            group_chat_id queue_name Hchat Hnz Hname). }
  assert (stored_queue team_id queue_name w1 = Some q) as Hq1 by (by rewrite Hw1).
  destruct (stored_queue_Some _ _ _ _ Hq1) as (qs & Hteam & Hqueue).
  pose proof (get_current_turn_Some _ _ _ _ Hget) as (m & Hm & _ & Hhid & _).
  destruct (find_user_pos_Some _ _ _ Hpos) as (mu & Hmu & Hmuid).
  destruct (substitute_substituted ct_pos user_pos q m mu Hm Hmu Hne)
    as (q' & Hsub & Hsubd).
  subst w2.
  rewrite (swap_users_valid w1 call _ _ _ _ _ _ _ Hteam Hqueue Hget _ _ Hpos Hne Hsub).
  simpl.
  assert (remove_job (swap_job_id call queue_name w1) (sched w1) = Some (sched w))
    as Hrm.
  { rewrite Hw1. unfold swap_job_id. simpl. rewrite Hrchat.
    by apply (remove_added_job (fallback_job now message group_chat_id queue_name)). }
  rewrite Hrm. simpl. split; [done|]. split; [by rewrite Hw1|].
  exists q'. split; [done|]. split; [done|]. split; [|apply stored_queue_update].
  intros Hdiff. apply (substituted_ne ct_pos user_pos q q' m mu); try done.
  by rewrite Hmuid, <- Hhid.
Qed.

Lemma escalate_then_substitute_witness :
  sched (world_of (swap_users call_Bo "dishes" 1
                     (world_of (inform_and_resolve 1000 (reason_Ann "sick") w_asked))))
  = sched w_asked /\
  exists q',
    substituted 0 1 [Ann; Bo; Cy] q' /\
    q' <> [Ann; Bo; Cy] /\
    stored_queue 1 "dishes"
      (world_of (swap_users call_Bo "dishes" 1
                   (world_of (inform_and_resolve 1000 (reason_Ann "sick") w_asked))))
    = Some q'.
Proof.
  destruct (escalate_then_substitute 1000 (reason_Ann "sick") call_Bo w_asked 1 1
              (-500) "dishes" [Ann; Bo; Cy] 1%Z "Ann" 0 1)
    as (Hsched & _ & q' & _ & Hsub & Hdiff & Hst).
  - vm_compute. reflexivity.
  - vm_compute. reflexivity.
  - lia.
  - vm_compute. reflexivity.
  - vm_compute. reflexivity.
  - vm_compute. reflexivity.
  - vm_compute. reflexivity.
  - reflexivity.
  - reflexivity.
  - lia.
  - split; [exact Hsched|]. exists q'. split; [exact Hsub|].
    split; [|exact Hst]. apply Hdiff. simpl. lia.
Defined.

(** ** Reordering: where the member lands, moving back, errors *)

Section ReorderMore.

Implicit Types (q : list member) (m : member).

(** X19: moving the member at [from_position] to a position inside the queue
    puts it at exactly that index and keeps all the others in their order:
    without the moved member, the new queue is the old one. *)
Theorem reorder_lands (from_position to_position : nat) q m :
  q !! from_position = Some m ->
  to_position < length q ->
  exists q',
    Pure.reorder from_position to_position q = inr q' /\
    q' !! to_position = Some m /\
    delete to_position q' = delete from_position q /\
    length q' = length q.
Proof.
  intros Hm Hto. eexists. split; [by apply reorder_inr|].
  pose proof (lookup_lt_Some _ _ _ Hm) as Hfrom.
  assert (length (delete from_position q) = length q - 1) as Hlen.
  { by apply length_delete. }
  assert (length (take to_position (delete from_position q)) = to_position)
    as Htake.
  { rewrite length_take. lia. }
  unfold Pure.list_insert_at. split; [|split].
  - by apply list_lookup_middle.
  - rewrite <- Htake at 1. rewrite delete_middle. apply take_drop.
  - rewrite length_app. simpl. rewrite Htake, length_drop. lia.
Qed.

Lemma reorder_lands_witness :
  exists q',
    Pure.reorder 0 2 [Ann; Bo; Cy] = inr q' /\
    q' !! 2 = Some Ann /\
    delete 2 q' = delete 0 [Ann; Bo; Cy] /\
    length q' = length [Ann; Bo; Cy].
Proof.
  apply (reorder_lands 0 2 [Ann; Bo; Cy] Ann); [reflexivity | simpl; lia].
Defined.

(** X20: a destination at or past the end puts the member last. *)
Theorem reorder_past_end (from_position to_position : nat) q m :
  q !! from_position = Some m ->
  length q - 1 <= to_position ->
  Pure.reorder from_position to_position q
  = inr (delete from_position q ++ [m])%list.
Proof.
  intros Hm Hto. rewrite (reorder_inr _ _ _ _ Hm). f_equal.
  assert (length (delete from_position q) = length q - 1) as Hlen.
  { by apply length_delete. }
  unfold Pure.list_insert_at.
  by rewrite take_ge, drop_ge by lia.
Qed.

Lemma reorder_past_end_witness :
  Pure.reorder 0 7 [Ann; Bo; Cy] = inr [Bo; Cy; Ann].
Proof.
  apply (reorder_past_end 0 7 [Ann; Bo; Cy] Ann); [reflexivity | simpl; lia].
Defined.

(** X21: moving a member and then moving it back from where it landed gives
    the original queue. *)
Theorem reorder_back (from_position to_position : nat) q :
  from_position < length q ->
  to_position < length q ->
  exists q',
    Pure.reorder from_position to_position q = inr q' /\
    Pure.reorder to_position from_position q' = inr q.
Proof.
  intros Hfrom Hto.
  destruct (lookup_lt_is_Some_2 q _ Hfrom) as [m Hm].
  exists (Pure.list_insert_at to_position m (delete from_position q)).
  split; [by apply reorder_inr|].
  assert (length (delete from_position q) = length q - 1) as Hlen.
  { by apply length_delete. }
  assert (length (take to_position (delete from_position q)) = to_position)
    as Htake.
  { rewrite length_take. lia. }
  assert (Pure.list_insert_at to_position m (delete from_position q)
            !! to_position = Some m) as Hland.
  { unfold Pure.list_insert_at. by apply list_lookup_middle. }
  rewrite (reorder_inr _ _ _ _ Hland). f_equal.
  assert (delete to_position
            (Pure.list_insert_at to_position m (delete from_position q))
          = delete from_position q) as ->.
  { unfold Pure.list_insert_at. rewrite <- Htake at 1.
    rewrite delete_middle. apply take_drop. }
  by apply take_drop_delete.
Qed.

Lemma reorder_back_witness :
  exists q',
    Pure.reorder 0 2 [Ann; Bo; Cy] = inr q' /\
    Pure.reorder 2 0 q' = inr [Ann; Bo; Cy].
Proof. apply (reorder_back 0 2 [Ann; Bo; Cy]); simpl; lia. Defined.

End ReorderMore.

Section ReorderErrors.

Context (call : CallbackQuery) (to_position : nat) (w : world).



(** X15: [ask_to_pick] shows the listing that [get_queue_list] gives for the
    chat's queue array and one button per member, in queue order, labelled
    with the member's name and carrying its index; without a queue array in
    the chat's data it raises [KeyError] after its log line. *)
Theorem ask_to_pick_question :
  match d_queue_array (data (get_ctx (c_chat call, c_from_id call) w)) with
  | Some queue_array =>
      ask_to_pick call w = Ret tt (after_pick call queue_array w)
  | None =>
      ask_to_pick call w
      = Raise KeyError
          (World (users w) (team_chats w) (queues w) (sched w) (fsm w)
             (outbox w) (log w ++ ["Reordering queue."]))
  end.
Proof.
  destruct (d_queue_array _) as [queue_array|] eqn:Harr.
  - by apply ask_to_pick_asks.
  - unfold ask_to_pick, mbind, logging_info, state_get_data. simpl.
    unfold get_ctx in *. simpl. by rewrite Harr.
Qed.

End ReorderErrors.

(** X18: the whole dialogue.  With a queue array and a queue name in the
    chat's data and a known sender, asking, picking position [i] and then
    destination [j], both inside the queue, never raises; for [i = j] no
    queue is written, otherwise the queue stored for the sender's team is
    the array with member [i] moved to [j]. *)
Theorem reorder_dialogue (call : CallbackQuery) (w : world)
  (queue_array : list member) (queue_name : string) (team_id : Z) (i j : nat) :
  d_queue_array (data (get_ctx (c_chat call, c_from_id call) w))
  = Some queue_array ->
  d_queue_name (data (get_ctx (c_chat call, c_from_id call) w))
  = Some queue_name ->
  users w !! c_from_id call = Some team_id ->
  i < length queue_array ->
  j < length queue_array ->
  let o1 := ask_to_pick call w in
  let o2 := ask_to_position call i (world_of o1) in
  let o3 := reorder_queue call j (world_of o2) in
  returned o1 = true /\ returned o2 = true /\ returned o3 = true /\
  (i = j -> queues (world_of o3) = queues w) /\
  (i <> j ->
     exists item_to_move q',
       queue_array !! i = Some item_to_move /\
       q' = (take j (delete i queue_array)
               ++ item_to_move :: drop j (delete i queue_array))%list /\
       q' !! j = Some item_to_move /\
       delete j q' = delete i queue_array /\
       Pure.reorder i j queue_array = inr q' /\
       stored_queue team_id queue_name (world_of o3) = Some q').
Proof.
  intros Harr Hname Huser Hi Hj o1 o2 o3.
  assert (o1 = Ret tt (after_pick call queue_array w)) as Ho1.
  { by apply ask_to_pick_asks. }
  assert (o2 = Ret tt (after_position call i queue_array (after_pick call queue_array w)))
    as Ho2.
  { subst o2. rewrite Ho1. simpl. by apply ask_to_position_asks. }
  set (w2 := after_position call i queue_array (after_pick call queue_array w)) in *.
  assert (get_ctx (c_chat call, c_from_id call) w2
          = Ctx (current_state (get_ctx (c_chat call, c_from_id call) w))
              (StateData (Some queue_name) (Some i) (Some queue_array))) as Hctx.
  { subst w2. unfold after_position. rewrite get_ctx_insert.
    unfold get_ctx, after_pick. simpl. fold (get_ctx (c_chat call, c_from_id call) w).
    by rewrite Harr, Hname. }
  assert (users w2 !! c_from_id call = Some team_id) as Huser2 by done.
  destruct (lookup_lt_is_Some_2 queue_array _ Hi) as [m Hm].
  pose proof (reorder_inr _ j _ _ Hm) as Hre.
  rewrite Ho1, Ho2. split; [done|]. split; [done|].
  subst o3. rewrite Ho2. simpl.
  destruct (decide (i = j)) as [<-|Hne].
  - rewrite (reorder_queue_same call w2 i queue_array queue_name)
      by (by rewrite Hctx).
    split; [done|]. split; [done|]. done.
  - rewrite (reorder_queue_moves call w2 i queue_array queue_name
               ltac:(by rewrite Hctx) ltac:(by rewrite Hctx)
               ltac:(by rewrite Hctx) j team_id _ Hne Hre Huser2).
    split; [done|]. split; [done|]. intros _.
    assert (length (delete i queue_array) = length queue_array - 1) as Hlen.
    { by apply length_delete. }
    assert (length (take j (delete i queue_array)) = j) as Htake.
    { rewrite length_take. lia. }
    exists m, (take j (delete i queue_array) ++ m :: drop j (delete i queue_array))%list.
    split; [done|]. split; [done|]. split; [by apply list_lookup_middle|].
    split.
    { rewrite <- Htake at 1. rewrite delete_middle. apply take_drop. }
    split; [exact Hre|]. apply stored_queue_update.
Qed.

Lemma reorder_dialogue_witness :
  returned (ask_to_pick call_Ann w_setup) = true /\
  exists q',
    q' = [Bo; Cy; Ann] /\
    stored_queue 1 "dishes"
      (world_of (reorder_queue call_Ann 2
                   (world_of (ask_to_position call_Ann 0
                                (world_of (ask_to_pick call_Ann w_setup))))))
    = Some q'.
Proof.
  destruct (reorder_dialogue call_Ann w_setup [Ann; Bo; Cy] "dishes" 1 0 2)
    as (H1 & _ & _ & _ & Hmove).
  - vm_compute. reflexivity.
  - vm_compute. reflexivity.
  - vm_compute. reflexivity.
  - simpl. lia.
  - simpl. lia.
  - split; [exact H1|].
    destruct Hmove as (item & q' & Hitem & Hq' & _ & _ & _ & Hst); [lia|].
    exists q'. split; [|exact Hst].
    injection Hitem as <-. exact Hq'.
Defined.

(** ** Teams, rosters and the queues menu *)

Section TeamProperties.

Implicit Types (d : Team.db) (user_id team_id : Z).

(** X22: right after [setup_team] the three readers agree with what was
    written: the user's team is the user's own id, the team's members are
    the user alone, the setup person is the user, and the team has a queues
    document with no queue in it; documents of other ids are untouched. *)
Theorem setup_team_then_read user_id (user_name : string) d :
  let d' := Team.db_of (Team.setup_team user_id user_name d) in
  Team.get_team_id user_id d' = Team.Ret user_id d' /\
  Team.get_team_members user_id d'
  = Team.Ret [(pretty user_id, user_name)] d' /\
  Team.get_setup_person user_id d' = Team.Ret user_name d' /\
  Team.queues d' !! user_id = Some [] /\
  (forall other, other <> user_id ->
     Team.users d' !! other = Team.users d !! other /\
     Team.teams d' !! other = Team.teams d !! other /\
     Team.queues d' !! other = Team.queues d !! other).
Proof.
  intros d'. subst d'. simpl.
  unfold Team.get_team_id, Team.get_team_members, Team.get_setup_person. simpl.
  rewrite !lookup_insert_eq. simpl. repeat split; try done;
    by rewrite lookup_insert_ne.
Qed.



End TeamProperties.


Section QueuesMenu.

Variable capitalize : string -> string.

Implicit Types (d : Team.db) (call entity : Team.update) (operation : string).

Lemma which_loop_spec operation (queue_names : list string) queues_list buttons :
  Team.which_loop capitalize operation queue_names queues_list buttons
  = (queues_list +:+ which_listing capitalize queue_names,
     (buttons ++ map (fun queue => Button queue (operation +:+ "_" +:+ queue))
                   queue_names)%list).
Proof.
  revert queues_list buttons.
  induction queue_names as [|queue rest IH]; intros queues_list buttons; simpl.
  - by rewrite string_app_nil_r, app_nil_r.
  - rewrite IH. f_equal.
    + by rewrite !string_app_assoc.
    + by rewrite <- app_assoc.
Qed.

(** The ways [ask_which_queue] can go. *)
Lemma ask_which_queue_cases call operation d :
  let user_id := Team.from_id call in
  let said (new : list Team.action) :=
    Team.Ret tt (Team.Db (Team.users d) (Team.teams d) (Team.queues d)
                   (Team.outbox d ++ new) (Team.log d)) in
  Team.ask_which_queue capitalize call operation d
  = match Team.users d !! user_id with
    | None => Team.Raise Team.TypeError d
    | Some data =>
        let team_id := Team.u_team_id data in
        match Team.users d !! team_id with
        | None =>
            said [Team.answer (Team.chat call) Team.who_are_you_text true;
                  Team.call_answer user_id]
        | Some setup_person =>
            if negb (String.eqb operation "show") && negb (Z.eqb user_id team_id)
            then
              said [Team.answer_sticker (Team.chat call) Team.NOPE_STICKER;
                    Team.answer (Team.chat call)
                      (Team.no_permission_text operation
                         (Team.u_name setup_person)) false;
                    Team.call_answer user_id]
            else
              match Team.queues d !! team_id with
              | None => Team.Raise Team.TypeError d
              | Some queues_data =>
                  said [Team.edit_text (Team.chat call)
                          (Team.select_text operation
                             (which_listing capitalize (map fst queues_data)))
                          (Some (InlineKeyboardMarkup
                                   (which_buttons operation
                                      (map fst queues_data))));
                        Team.call_answer user_id]
              end
        end
    end.
Proof.
  intros user_id said. subst user_id said.
  unfold Team.ask_which_queue, Team.bind, Team.get_team_id. simpl.
  destruct (Team.users d !! Team.from_id call) as [data|]; [|done]. simpl.
  unfold Team.get_setup_person.
  destruct (Team.users d !! Team.u_team_id data) as [sp|].
  2: { unfold Team.bind, Team.emit. simpl. by rewrite <- !app_assoc. }
  destruct (negb (String.eqb operation "show")
            && negb (Z.eqb (Team.from_id call) (Team.u_team_id data))).
  { unfold Team.bind, Team.emit. simpl. by rewrite <- !app_assoc. }
  unfold Team.bind. simpl.
  destruct (Team.queues d !! Team.u_team_id data) as [qs|]; [|done].
  rewrite which_loop_spec. simpl. unfold Team.emit. simpl.
  by rewrite <- !app_assoc.
Qed.

(** X24: somebody who did not set the team up is never given buttons for
    anything but showing: for every operation other than ["show"] and every
    sender whose id is not the id of the sender's team, nothing that
    [ask_which_queue] sends carries a keyboard, and no collection is
    written. *)
Theorem ask_which_queue_permission call operation d :
  operation <> "show" ->
  (forall data, Team.users d !! Team.from_id call = Some data ->
                Team.u_team_id data <> Team.from_id call) ->
  let d' := Team.db_of (Team.ask_which_queue capitalize call operation d) in
  Team.users d' = Team.users d /\ Team.teams d' = Team.teams d /\
  Team.queues d' = Team.queues d /\
  exists new,
    Team.outbox d' = (Team.outbox d ++ new)%list /\
    forall a data, a ∈ new -> ~ Team.offers data a.
Proof.
  intros Hop Hnot d'. subst d'. rewrite ask_which_queue_cases. simpl.
  destruct (Team.users d !! Team.from_id call) as [data|] eqn:Huser.
  2: { repeat split. exists []. split; [by rewrite app_nil_r|].
       intros a x Ha. by apply elem_of_nil in Ha. }
  specialize (Hnot data eq_refl).
  destruct (Team.users d !! Team.u_team_id data) as [sp|].
  - rewrite (proj2 (String.eqb_neq _ _)) by done.
    rewrite (proj2 (Z.eqb_neq _ _)) by done. simpl.
    repeat split. eexists. split; [reflexivity|].
    intros a x Ha.
    repeat (apply elem_of_cons in Ha as [->|Ha]; [intros Hf; exact Hf|]).
    by apply elem_of_nil in Ha.
  - simpl. repeat split. eexists. split; [reflexivity|].
    intros a x Ha.
    repeat (apply elem_of_cons in Ha as [->|Ha]; [intros Hf; exact Hf|]).
    by apply elem_of_nil in Ha.
Qed.

(** X25: for the setup person, and for anybody who asks to be shown a queue,
    [ask_which_queue] offers one button per queue of the team, in document
    order, each labelled with the queue name and carrying
    ["<operation>_<queue>"], followed by Back; a team without a queues
    document gives [TypeError] with nothing sent. *)
Theorem ask_which_queue_buttons call operation d data setup_person :
  Team.users d !! Team.from_id call = Some data ->
  Team.users d !! Team.u_team_id data = Some setup_person ->
  operation = "show" \/ Team.from_id call = Team.u_team_id data ->
  let o := Team.ask_which_queue capitalize call operation d in
  match Team.queues d !! Team.u_team_id data with
  | None => o = Team.Raise Team.TypeError d
  | Some queues_data =>
      Team.returned o = true /\
      Team.outbox (Team.db_of o)
      = (Team.outbox d ++
           [Team.edit_text (Team.chat call)
              (Team.select_text operation
                 (which_listing capitalize (map fst queues_data)))
              (Some (InlineKeyboardMarkup
                       (map (fun queue => Button queue (operation +:+ "_" +:+ queue))
                          (map fst queues_data)
                        ++ [Button "Back" "back"])));
            Team.call_answer (Team.from_id call)])%list
  end.
Proof.
  intros Huser Hsp Hallowed o. subst o.
  rewrite ask_which_queue_cases. simpl. rewrite Huser. simpl. rewrite Hsp.
  assert (negb (String.eqb operation "show")
          && negb (Z.eqb (Team.from_id call) (Team.u_team_id data)) = false) as ->.
  { destruct Hallowed as [-> | ->]; [done|].
    by rewrite Z.eqb_refl, andb_false_r. }
  by destruct (Team.queues d !! Team.u_team_id data).
Qed.

(** The ways [list_queues] can go. *)
Lemma list_queues_cases (is_message : bool) entity d :
  let user_id := Team.from_id entity in
  let logged := Team.Db (Team.users d) (Team.teams d) (Team.queues d)
                  (Team.outbox d) (Team.log d ++ ["/queues command issued."]) in
  let said (new : list Team.action) :=
    Team.Ret tt (Team.Db (Team.users d) (Team.teams d) (Team.queues d)
                   (Team.outbox d ++ new)
                   (Team.log d ++ ["/queues command issued."])) in
  let show (body : string) (kb : keyboard) :=
    if is_message then said [Team.reply (Team.chat entity) body (Some kb)]
    else said [Team.edit_text (Team.chat entity) body (Some kb);
               Team.call_answer user_id] in
  Team.list_queues is_message entity d
  = match Team.users d !! user_id with
    | None => Team.Raise Team.TypeError logged
    | Some data =>
        let team_id := Team.u_team_id data in
        if Z.eqb team_id 0 && is_message then
          said [Team.reply (Team.chat entity) Team.no_team_text None]
        else
          match Team.queues d !! team_id with
          | None => Team.Raise Team.TypeError logged
          | Some [] =>
              show Team.no_queues_text
                (InlineKeyboardMarkup [Button "Create New Queue" "create"])
          | Some queues_data =>
              if Z.eqb user_id team_id
              then show (Team.admin_text
                           (Team.queues_list_of (map fst queues_data)))
                     Team.get_admin_keyboard
              else show (Team.user_text
                           (Team.queues_list_of (map fst queues_data)))
                     Team.get_user_keyboard
          end
    end.
Proof.
  intros user_id logged said show. subst user_id logged said show.
  unfold Team.list_queues, Team.bind, Team.logging_info, Team.get_team_id.
  simpl.
  destruct (Team.users d !! Team.from_id entity) as [data|]; [|done]. simpl.
  destruct (Z.eqb (Team.u_team_id data) 0 && is_message) eqn:E; simpl.
  { unfold Team.emit. simpl. done. }
  destruct (Team.queues d !! Team.u_team_id data) as [[|q0 qs]|]; [| |done].
  - destruct is_message; unfold Team.bind, Team.emit; simpl;
      by rewrite <- ?app_assoc.
  - destruct (Z.eqb (Team.from_id entity) (Team.u_team_id data));
      destruct is_message; unfold Team.bind, Team.emit; simpl;
      by rewrite <- ?app_assoc.
Qed.

(** X26: whatever the sender, the state of the collections and the kind of
    update, [list_queues] writes no collection, and a keyboard with a
    Modify, Pause, Resume or Delete button is only ever sent to a sender
    whose id is the id of the sender's team. *)
Theorem list_queues_admin_menu (is_message : bool) entity d :
  let d' := Team.db_of (Team.list_queues is_message entity d) in
  Team.users d' = Team.users d /\ Team.teams d' = Team.teams d /\
  Team.queues d' = Team.queues d /\
  exists new,
    Team.outbox d' = (Team.outbox d ++ new)%list /\
    forall a op, a ∈ new -> op ∈ admin_only -> Team.offers op a ->
      exists data, Team.users d !! Team.from_id entity = Some data /\
                   Team.u_team_id data = Team.from_id entity.
Proof.
  intros d'. subst d'. rewrite list_queues_cases. simpl.
  assert (forall a op, a ∈ @nil Team.action -> op ∈ admin_only ->
            Team.offers op a -> False) as Hnil.
  { intros a op Ha. by apply elem_of_nil in Ha. }
  destruct (Team.users d !! Team.from_id entity) as [data|] eqn:Huser.
  2: { repeat split. exists []. split; [by rewrite app_nil_r|].
       intros a op Ha Hop Hoff. destruct (Hnil a op Ha Hop Hoff). }
  assert (forall (body : string) (bs : list InlineKeyboardButton) a op,
            (forall b, b ∈ bs -> callback_data b ∉ admin_only) ->
            a ∈ (if is_message
                 then [Team.reply (Team.chat entity) body
                         (Some (InlineKeyboardMarkup bs))]
                 else [Team.edit_text (Team.chat entity) body
                         (Some (InlineKeyboardMarkup bs));
                       Team.call_answer (Team.from_id entity)]) ->
            op ∈ admin_only -> Team.offers op a -> False) as Hplain.
  { intros body bs a op Hbs Ha Hop Hoff.
    assert (op ∈ map callback_data bs) as Hin.
    { destruct is_message.
      - apply list_elem_of_singleton in Ha. by subst.
      - apply elem_of_cons in Ha as [->|Ha]; [done|].
        apply list_elem_of_singleton in Ha. by subst. }
    apply list_elem_of_fmap in Hin as (b & -> & Hb). by apply (Hbs b). }
  destruct (Z.eqb (Team.u_team_id data) 0 && is_message).
  { simpl. repeat split. eexists. split; [reflexivity|].
    intros a op Ha Hop Hoff. apply list_elem_of_singleton in Ha. by subst. }
  destruct (Team.queues d !! Team.u_team_id data) as [[|q0 qs]|].
  - destruct is_message; simpl; repeat split; (eexists; split; [reflexivity|]);
      intros a op Ha Hop Hoff; exfalso;
      (eapply (Hplain Team.no_queues_text [Button "Create New Queue" "create"]);
       [|exact Ha|exact Hop|exact Hoff]);
      intros b Hb; apply list_elem_of_singleton in Hb; subst; simpl;
      apply (bool_decide_eq_false_1 _); vm_compute; reflexivity.
  - destruct (Z.eqb_spec (Team.from_id entity) (Team.u_team_id data)) as [Heq|Hne].
    + destruct is_message; simpl; repeat split;
        (eexists; split; [reflexivity|]); intros a op _ _ _; by exists data.
    + destruct is_message; simpl; repeat split;
        (eexists; split; [reflexivity|]);
        intros a op Ha Hop Hoff; exfalso;
        (eapply (Hplain _ [Button "Show Queue" "show"]);
         [|exact Ha|exact Hop|exact Hoff]);
        intros b Hb; apply list_elem_of_singleton in Hb; subst; simpl;
        apply (bool_decide_eq_false_1 _); vm_compute; reflexivity.
  - simpl. repeat split. exists []. split; [by rewrite app_nil_r|].
    intros a op Ha Hop Hoff. destruct (Hnil a op Ha Hop Hoff).
Qed.

(** X27: a team whose queues document holds no queue gets the Create New
    Queue button from [list_queues], whether or not the sender set the team
    up. *)
Theorem list_queues_offers_create (is_message : bool) entity d data :
  Team.users d !! Team.from_id entity = Some data ->
  Team.u_team_id data <> 0%Z ->
  Team.queues d !! Team.u_team_id data = Some [] ->
  let o := Team.list_queues is_message entity d in
  Team.returned o = true /\
  exists a, a ∈ Team.outbox (Team.db_of o) /\ Team.offers "create" a.
Proof.
  intros Huser Hnz Hqs o. subst o. rewrite list_queues_cases. simpl.
  rewrite Huser. simpl. rewrite (proj2 (Z.eqb_neq _ _)) by done. simpl.
  rewrite Hqs. destruct is_message; simpl; (split; [done|]).
  - eexists. split; [apply elem_of_app; right; by left|]. simpl. by left.
  - eexists. split; [apply elem_of_app; right; by left|]. simpl. by left.
Qed.

End QueuesMenu.

Lemma ask_which_queue_permission_witness :
  Team.queues (Team.db_of (Team.ask_which_queue (fun s => s) (Team.Update 2 (-500))
                             "delete" d_two))
  = Team.queues d_two.
Proof.
  apply (ask_which_queue_permission (fun s => s) (Team.Update 2 (-500))
           "delete" d_two).
  - discriminate.
  - intros data Hdata. vm_compute in Hdata. injection Hdata as <-. simpl. lia.
Defined.

Lemma ask_which_queue_buttons_witness :
  Team.returned (Team.ask_which_queue (fun s => s) (Team.Update 1 (-500))
                   "modify" d_two) = true.
Proof.
  pose proof (ask_which_queue_buttons (fun s => s) (Team.Update 1 (-500))
                "modify" d_two (Team.UserDoc "Ann" 1) (Team.UserDoc "Ann" 1)) as H.
  simpl in H. apply H.
  - vm_compute. reflexivity.
  - vm_compute. reflexivity.
  - right. reflexivity.
Defined.

Lemma list_queues_offers_create_witness :
  Team.returned
    (Team.list_queues true (Team.Update 1 1)
       (Team.db_of (Team.setup_team 1 "Ann" d_two))) = true.
Proof.
  apply (list_queues_offers_create true (Team.Update 1 1)
           (Team.db_of (Team.setup_team 1 "Ann" d_two)) (Team.UserDoc "Ann" 1)).
  - vm_compute. reflexivity.
  - simpl. lia.
  - vm_compute. reflexivity.
Defined.

(** ** From the request to the substitution *)

(** X12: the queue name travels from the request button through the chat's
    data and the substitute button to [swap_users] as the last
    underscore-free piece of the name in ["ask_why_<name>"], together with
    the team id: the name itself exactly when it holds no underscore. *)
Theorem callback_chain (name : string) (team_id : Z) :
  swap_data (swap_button_data (ask_why_data ("ask_why_" +:+ name)) team_id)
  = inr (last_piece name, team_id) /\
  (last_piece name = name <-> no_underscore name = true).
Proof.
  change ("ask_why_" +:+ name)
    with ("ask" +:+ String "_" ("why" +:+ String "_" name)).
  unfold ask_why_data. rewrite !last_piece_app. split.
  - unfold swap_data, swap_button_data.
    change ("swap_" +:+ last_piece name +:+ "_" +:+ pretty team_id)
      with ("swap" +:+ String "_" (last_piece name +:+ String "_" (pretty team_id))).
    rewrite (last_piece_app "swap"), (last_piece_app (last_piece name)).
    rewrite (last_piece_no_underscore (pretty team_id)), int_pretty_Z
      by apply no_underscore_pretty_Z.
    rewrite !split_app.
    by rewrite (split_no_underscore (last_piece name))
      by apply last_piece_has_no_underscore.
  - split.
    + intros <-. apply last_piece_has_no_underscore.
    + apply last_piece_no_underscore.
Qed.

(** X13: when the team has no queue under the last piece of the name, as for
    a queue ["living_room"] beside no queue ["room"], the substitute button
    leads [swap_users] to [KeyError]: nobody can take the turn over. *)
Theorem underscore_name_cannot_swap (call : CallbackQuery) (name : string)
  (team_id : Z) (w : world) (qs : gmap string (list member)) :
  queues w !! team_id = Some qs ->
  qs !! last_piece name = None ->
  exists queue_name team_id',
    swap_data (swap_button_data (ask_why_data ("ask_why_" +:+ name)) team_id)
    = inr (queue_name, team_id') /\
    swap_users call queue_name team_id' w = Raise KeyError w.
Proof.
  intros Hteam Hqueue. exists (last_piece name), team_id. split.
  - change ("ask_why_" +:+ name)
      with ("ask" +:+ String "_" ("why" +:+ String "_" name)).
    unfold ask_why_data. rewrite !last_piece_app.
    unfold swap_data, swap_button_data.
    change ("swap_" +:+ last_piece name +:+ "_" +:+ pretty team_id)
      with ("swap" +:+ String "_" (last_piece name +:+ String "_" (pretty team_id))).
    rewrite (last_piece_app "swap"), (last_piece_app (last_piece name)).
    rewrite (last_piece_no_underscore (pretty team_id)), int_pretty_Z
      by apply no_underscore_pretty_Z.
    rewrite !split_app.
    by rewrite (split_no_underscore (last_piece name))
      by apply last_piece_has_no_underscore.
  - by rewrite swap_users_cases, Hteam, Hqueue.
Qed.

Lemma underscore_name_cannot_swap_witness :
  exists queue_name team_id',
    swap_data (swap_button_data (ask_why_data "ask_why_living_room") 1)
    = inr (queue_name, team_id') /\
    swap_users call_Bo queue_name team_id' w0 = Raise KeyError w0.
Proof.
  apply (underscore_name_cannot_swap call_Bo "living_room" 1 w0
           {[ "dishes" := [Ann; Bo; Cy] ]}).
  - vm_compute. reflexivity.
  - vm_compute. reflexivity.
Defined.

Lemma substitute_turn_at_witness :
  exists q', Pure.substitute 0 2 [Ann; Bo; Cy] = inr q' /\ turn_at 1 q'.
Proof.
  apply (substitute_turn_at 0 2 [Ann; Bo; Cy]).
  - split; [simpl; lia|]. intros [|[|[|j]]] m Hm; simplify_eq/=; reflexivity.
  - simpl. lia.
  - lia.
Defined.

Lemma swap_users_single_turn_witness :
  exists q',
    returned (swap_users call_Bo "dishes" 1 w_escalated) = true /\
    stored_queue 1 "dishes" (world_of (swap_users call_Bo "dishes" 1 w_escalated))
    = Some q' /\
    turn_count q' = 1.
Proof.
  apply (swap_users_single_turn w_escalated call_Bo "dishes" 1 [Ann; Bo; Cy]).
  - vm_compute. reflexivity.
  - reflexivity.
Defined.

(** ** The second question *)


(** ** Starting the bot *)

Section GreetProperties.

Variable decode_payload : string -> option string.
Variable get_confirmation : Z -> Z -> Team.M unit.

Implicit Types (d : Team.db) (message : Team.start_message).

(** X28: for a sender with no users document [greet] raises [TypeError]
    right after its log line and the greeting sticker, whatever the
    arguments and the kind of chat: no collection is written and no text is
    sent, so an invite link does not sign such a sender up. *)
Theorem greet_unknown_user message d :
  Team.users d !! Team.s_from_id message = None ->
  Team.greet decode_payload get_confirmation message d
  = Team.Raise Team.TypeError
      (Team.Db (Team.users d) (Team.teams d) (Team.queues d)
         (Team.outbox d ++
            [Team.answer_sticker (Team.s_chat message) Team.HI_STICKER])
         (Team.log d ++ ["/start command issued."])).
Proof.
  intros Huser.
  unfold Team.greet, Team.bind, Team.logging_info, Team.emit, Team.get_team_id.
  simpl. by rewrite Huser.
Qed.

Lemma set_member_elem (key name : string) (members : list (string * string)) :
  (key, name) ∈ Team.set_member key name members.
Proof.
  induction members as [|[k v] rest IH]; simpl; [by left|].
  destruct (String.eqb k key); [by left | by right].
Qed.

Lemma set_member_keys (key name : string) (members : list (string * string)) :
  key ∈ map fst members ->
  map fst (Team.set_member key name members) = map fst members.
Proof.
  induction members as [|[k v] rest IH]; simpl; intros Hin.
  - by apply elem_of_nil in Hin.
  - destruct (String.eqb_spec k key) as [->|Hne]; [done|]. simpl. f_equal.
    apply IH. apply elem_of_cons in Hin as [Heq|Hin]; [by subst|done].
Qed.

(** X29: a sender who has a users document with team id 0 and starts the
    bot in a private chat with an invite payload that decodes to the number
    [team_id] is written into the users collection with that team and into
    the members of that team, under [str(user_id)]; no queue is written, so
    the sender stands in no queue.  The greetings follow only if a users
    document exists for [team_id] after these writes; if not, [TypeError]
    is raised with the writes made and nothing but the sticker sent. *)
Theorem greet_sign_up message d data (payload : string) (team_id : Z) :
  Team.users d !! Team.s_from_id message = Some data ->
  Team.u_team_id data = 0%Z ->
  Team.s_args message <> EmptyString ->
  Team.s_chat_type message = Team.private ->
  decode_payload (Team.s_args message) = Some payload ->
  int payload = Some team_id ->
  let o := Team.greet decode_payload get_confirmation message d in
  let d' := Team.db_of o in
  let user_id := Team.s_from_id message in
  let user_name := Team.s_full_name message in
  Team.users d' = <[user_id := Team.UserDoc user_name team_id]> (Team.users d) /\
  (exists members, Team.teams d' !! team_id = Some members /\
                   (pretty user_id, user_name) ∈ members) /\
  (forall other, other <> team_id ->
     Team.teams d' !! other = Team.teams d !! other) /\
  Team.queues d' = Team.queues d /\
  match Team.users d' !! team_id with
  | None =>
      o = Team.Raise Team.TypeError d' /\
      Team.outbox d'
      = (Team.outbox d ++
           [Team.answer_sticker (Team.s_chat message) Team.HI_STICKER])%list
  | Some setup_person =>
      Team.returned o = true /\
      Team.outbox d'
      = (Team.outbox d ++
           [Team.answer_sticker (Team.s_chat message) Team.HI_STICKER;
            Team.send_message team_id (Team.signed_up_text user_name);
            Team.answer (Team.s_chat message) Team.hello_invited_text false;
            Team.answer (Team.s_chat message)
              (Team.thank_text (Team.u_name setup_person)) false])%list
  end.
Proof.
  intros Huser Hzero Hargs Hprivate Hdecode Hint o d' user_id user_name.
  subst d' o user_id user_name.
  unfold Team.greet, Team.bind, Team.logging_info, Team.emit, Team.get_team_id.
  simpl. rewrite Huser, Hzero, Hprivate, Hdecode, Hint. simpl.
  assert (Team.is_empty (Team.s_args message) = false) as ->.
  { by destruct (Team.s_args message). }
  simpl. unfold Team.get_setup_person. simpl.
  destruct (<[Team.s_from_id message:=_]> (Team.users d) !! team_id)
    as [sp|] eqn:Hsp; simpl; rewrite ?Hsp.
  - split; [done|]. split.
    { eexists. split; [apply lookup_insert_eq | apply set_member_elem]. }
    split; [intros other Hne; by rewrite lookup_insert_ne|].
    split; [done|]. split; [done|]. by rewrite <- !app_assoc.
  - split; [done|]. split.
    { eexists. split; [apply lookup_insert_eq | apply set_member_elem]. }
    split; [intros other Hne; by rewrite lookup_insert_ne|].
    done.
Qed.

End GreetProperties.

Lemma greet_sign_up_witness :
  Team.queues (Team.db_of (Team.greet (fun s => Some s) (fun _ _ => Team.ret tt)
                             (Team.Start 5 "Eve" 5 Team.private "1") d_invited))
  = Team.queues d_invited.
Proof.
  apply (greet_sign_up (fun s => Some s) (fun _ _ => Team.ret tt)
           (Team.Start 5 "Eve" 5 Team.private "1") d_invited
           (Team.UserDoc "Eve" 0) "1" 1).
  - vm_compute. reflexivity.
  - reflexivity.
  - discriminate.
  - reflexivity.
  - reflexivity.
  - reflexivity.
Defined.

Lemma greet_unknown_user_witness :
  Team.returned (Team.greet (fun s => Some s) (fun _ _ => Team.ret tt)
                   (Team.Start 9 "Dee" 9 Team.private "1") d_invited) = false.
Proof.
  rewrite (greet_unknown_user (fun s => Some s) (fun _ _ => Team.ret tt)
             (Team.Start 9 "Dee" 9 Team.private "1") d_invited).
  - reflexivity.
  - vm_compute. reflexivity.
Defined.
